(** * Sentinell dashboard and orchestration core: a shallow embedding

    The first part embeds [frontend/src/app/page.tsx]: the four pieces of
    React state of [Dashboard], the two asynchronous handlers [handleScan]
    and [handlePurchase] (each split at its [await]), the rendered view, and
    the event loop that connects them.  The second part models the backend
    operations behind the HTTP boundary, which the repository snapshot does
    not contain, from the specification. *)

From Stdlib Require Import ZArith.
From stdpp Require Import base option strings list gmap.

Local Open Scope string_scope.
Local Open Scope list_scope.
Local Open Scope Z_scope.
#[local] Set Warnings "-register-all".

(** ** JavaScript values *)

(** A JSON-decoded JavaScript value.  Objects are finite maps from property
    names to values. *)
Inductive value : Type :=
| VUndefined
| VNull
| VBool (b : bool)
| VNumber (n : Z)
| VString (s : string)
| VObject (fields : gmap string value).

(** JavaScript truthiness, as used by [!x] and [x && y]. *)
Definition truthy (v : value) : bool :=
  match v with
  | VUndefined | VNull => false
  | VBool b => b
  | VNumber n => negb (n =? 0)
  | VString s => negb (String.eqb s "")
  | VObject _ => true
  end.

(** Property read [v.k] for a key [k] that no built-in prototype defines
    (such as [summary]): a [TypeError] ([None]) on [null] and [undefined],
    [undefined] on the other primitives and on objects without the key. *)
Definition get_prop (k : string) (v : value) : option value :=
  match v with
  | VUndefined | VNull => None
  | VObject fields => Some (default VUndefined (fields !! k))
  | _ => Some VUndefined
  end.

(** Whether [k] is an own property of a value. *)
Definition has_prop (k : string) (v : value) : bool :=
  match v with
  | VObject fields => bool_decide (is_Some (fields !! k))
  | _ => false
  end.

(** [!x] for a value that is an object or [null]. *)
Definition isNull {A} (o : option A) : bool :=
  match o with Some _ => false | None => true end.

(** A settled promise. *)
Inductive Outcome (A : Type) : Type :=
| Fulfilled (a : A)
| Rejected (err : value).
Arguments Fulfilled {A} a.
Arguments Rejected {A} err.

(** ** The API client's types *)

Module Api.

(** Modelled from the spec: the interface [ScanResponse] of [@/lib/api] is
    not part of the source.  Its fields are those of RiskReport in the data
    model; [page.tsx] reads [risk_level], [timestamp] and [summary], and
    compares [risk_level] with string literals. *)
Record ScanResponse : Type := {
  region : string;
  risk_level : string;
  affected_parts : list string;
  summary : string;
  timestamp : string
}.

End Api.

(** ** Component state and effects *)

(** The four [useState] cells of [Dashboard]. *)
Record DashState : Type := {
  region : string;
  loading : bool;
  scanResult : option Api.ScanResponse;
  orderStatus : value
}.

(** Initial values passed to [useState]. *)
Definition initialState : DashState :=
  {| region := "Taiwan"; loading := false; scanResult := None; orderStatus := VNull |}.

(** Everything a handler does, in program order: state setter calls, the
    blocking dialogs and the calls of the API client. *)
Inductive Effect : Type :=
| SetRegion (r : string)
| SetLoading (b : bool)
| SetScanResult (v : option Api.ScanResponse)
| SetOrderStatus (v : value)
| Alert (msg : string)
| Confirm (msg : string) (answer : bool)
| ScanRegion (r : string)
| PurchaseParts (part_id : string) (quantity : Z).

(** Handlers run in a state-and-trace monad. *)
Definition M (A : Type) : Type := DashState → A * DashState * list Effect.

Definition ret {A} (a : A) : M A := λ s, (a, s, []).

Definition bind {A B} (m : M A) (k : A → M B) : M B :=
  λ s, let '(a, s1, t1) := m s in
       let '(b, s2, t2) := k a s1 in
       (b, s2, t1 ++ t2).

#[global] Instance M_ret : MRet M := @ret.
#[global] Instance M_bind : MBind M := λ A B k m, bind m k.

Definition stateOf {A} (r : A * DashState * list Effect) : DashState := r.1.2.
Definition traceOf {A} (r : A * DashState * list Effect) : list Effect := r.2.

Definition setRegion (r : string) : M unit := λ s,
  (tt, {| region := r; loading := loading s;
          scanResult := scanResult s; orderStatus := orderStatus s |},
   [SetRegion r]).

Definition setLoading (b : bool) : M unit := λ s,
  (tt, {| region := region s; loading := b;
          scanResult := scanResult s; orderStatus := orderStatus s |},
   [SetLoading b]).

Definition setScanResult (v : option Api.ScanResponse) : M unit := λ s,
  (tt, {| region := region s; loading := loading s;
          scanResult := v; orderStatus := orderStatus s |},
   [SetScanResult v]).

Definition setOrderStatus (v : value) : M unit := λ s,
  (tt, {| region := region s; loading := loading s;
          scanResult := scanResult s; orderStatus := v |},
   [SetOrderStatus v]).

Definition getRegion : M string := λ s, (region s, s, []).

Definition alert (msg : string) : M unit := λ s, (tt, s, [Alert msg]).

(** [confirm(msg)]: the user's answer is supplied by the environment. *)
Definition confirm (msg : string) (answer : bool) : M bool :=
  λ s, (answer, s, [Confirm msg answer]).

Definition call (e : Effect) : M unit := λ s, (tt, s, [e]).

(** ** The handlers *)

(** [handleScan] up to its [await]. *)
Definition handleScan_request : M unit :=
  setLoading true ;;
  setScanResult None ;;
  setOrderStatus VNull ;;
  r ← getRegion;
  call (ScanRegion r).

(** [handleScan] from the settlement of [api.scanRegion(region)]: the rest
    of the [try] block or the [catch] block, then [finally]. *)
Definition handleScan_settle (o : Outcome Api.ScanResponse) : M unit :=
  match o with
  | Fulfilled data => setScanResult (Some data)
  | Rejected _ =>
      alert "Failed to connect to Sentinell Backend. Please check your .env.local file."
  end ;;
  setLoading false.

(** A whole run of [handleScan] with no other event in between. *)
Definition handleScan (o : Outcome Api.ScanResponse) : M unit :=
  handleScan_request ;; handleScan_settle o.

(** [handlePurchase] up to its [await]; the result tells whether a request
    was issued. *)
Definition handlePurchase_request (answer : bool) : M bool :=
  ok ← confirm "Confirm purchase of 50 CPUs from backup supplier?" answer;
  if negb ok then mret false
  else
    setLoading true ;;
    call (PurchaseParts "Logic-Core-CPU" 50) ;;
    mret true.

(** [handlePurchase] from the settlement of [api.purchaseParts(..)].  Reading
    [res.summary] of [null] or [undefined] throws inside the [try] block. *)
Definition handlePurchase_settle (o : Outcome value) : M unit :=
  match o with
  | Fulfilled res =>
      match get_prop "summary" res with
      | Some v => setOrderStatus v
      | None => alert "Purchase failed. Check console for details."
      end
  | Rejected _ => alert "Purchase failed. Check console for details."
  end ;;
  setLoading false.

(** A whole run of [handlePurchase]: nothing follows a declined dialog. *)
Definition handlePurchase (answer : bool) (o : Outcome value) : M unit :=
  sent ← handlePurchase_request answer;
  if sent : bool then handlePurchase_settle o else mret tt.

(** ** The rendered view *)

(** The scan result card: the badge's conditional class, whether the
    [AlertTriangle] icon is shown, the badge text, the time and the summary. *)
Record ScanPanel : Type := {
  badgeClass : string;
  alertIcon : bool;
  badgeText : string;
  timeText : string;
  summaryText : string
}.

(** What the child expression [{orderStatus && (<div>..</div>)}] evaluates
    to: [orderStatus] itself when it is falsy, else the order card, whose
    paragraph has [{orderStatus}] as its child. *)
Inductive OrderSlot : Type :=
| SlotValue (v : value)
| SlotCard (message : value).

(** The parts of the element tree that depend on the state. *)
Record View : Type := {
  selectValue : string;
  scanDisabled : bool;
  scanSpinner : bool;
  scanLabel : string;
  purchaseDisabled : bool;
  purchaseClass : string;
  emptyState : bool;
  scanPanel : option ScanPanel;
  orderSlot : OrderSlot
}.

(** The order card of the tree, if it has one, with the child of its
    paragraph. *)
Definition orderPanel (v : View) : option value :=
  match orderSlot v with
  | SlotCard message => Some message
  | SlotValue _ => None
  end.

(** What React DOM puts on the screen for a child that is a value: nothing
    for [null], [undefined], booleans and the empty string, the text of a
    string or of a number otherwise. *)
Inductive Painted : Type :=
| Blank
| StringText (s : string)
| NumberText (n : Z).

(** React DOM on a child value; [None] when it throws (an object is not a
    valid React child), which unmounts the whole dashboard since the page
    has no error boundary. *)
Definition paint (v : value) : option Painted :=
  match v with
  | VUndefined | VNull | VBool _ => Some Blank
  | VNumber n => Some (NumberText n)
  | VString s => Some (if String.eqb s "" then Blank else StringText s)
  | VObject _ => None
  end.

(** What is on the screen in the place of the order card: no card, with
    whatever the falsy value left there paints, or the card with its
    message. *)
Inductive OrderShown : Type :=
| NoCard (stray : Painted)
| Card (message : Painted).


Definition paintOrder (slot : OrderSlot) : option OrderShown :=
  match slot with
  | SlotValue v => NoCard <$> paint v
  | SlotCard message => Card <$> paint message
  end.

(** The page on the screen: [None] when rendering the tree throws and the
    dashboard unmounts, else the tree is shown with its order slot painted
    as given. *)
Definition mounted (v : View) : option OrderShown := paintOrder (orderSlot v).

(** The [value]s of the [option] elements of the region [select]. *)
Definition regionOptions : list string := ["Taiwan"; "USA"; "Vietnam"].

(** The nested conditional of the badge's [className]. *)
Definition badgeClassOf (risk_level : string) : string :=
  if String.eqb risk_level "CRITICAL" then "bg-red-950/50 border-red-500 text-red-400"
  else if String.eqb risk_level "MEDIUM" then "bg-yellow-950/50 border-yellow-500 text-yellow-400"
  else "bg-green-950/50 border-green-500 text-green-400".

Section Render.

(** [new Date(t).toLocaleTimeString()] depends on the browser's locale. *)
Variable toLocaleTimeString : string → string.

Definition renderScan (data : Api.ScanResponse) : ScanPanel :=
  {| badgeClass := badgeClassOf (Api.risk_level data);
     alertIcon := String.eqb (Api.risk_level data) "CRITICAL";
     badgeText := Api.risk_level data +:+ " RISK DETECTED";
     timeText := toLocaleTimeString (Api.timestamp data);
     summaryText := Api.summary data |}.

(** The [return] of [Dashboard]. *)
Definition render (s : DashState) : View :=
  {| selectValue := region s;
     scanDisabled := loading s;
     scanSpinner := loading s;
     scanLabel := if loading s then "Analyzing..." else "Run Risk Analysis";
     purchaseDisabled := loading s || isNull (scanResult s);
     purchaseClass :=
       if isNull (scanResult s)
       then "border-slate-700 text-slate-600 cursor-not-allowed"
       else "border-green-600 text-green-500 hover:bg-green-900/20 active:scale-95";
     emptyState := isNull (scanResult s) && negb (truthy (orderStatus s));
     scanPanel := renderScan <$> scanResult s;
     orderSlot :=
       if truthy (orderStatus s) then SlotCard (orderStatus s)
       else SlotValue (orderStatus s) |}.

End Render.

(** ** The event loop *)

(** A call of the API client whose promise has not settled yet. *)
Inductive Request : Type :=
| ReqScan (r : string)
| ReqPurchase (part_id : string) (quantity : Z).

Definition requestOf (e : Effect) : option Request :=
  match e with
  | ScanRegion r => Some (ReqScan r)
  | PurchaseParts p q => Some (ReqPurchase p q)
  | _ => None
  end.

Definition requestsOf (t : list Effect) : list Request := omap requestOf t.

Definition isScan (q : Request) : bool :=
  match q with ReqScan _ => true | ReqPurchase _ _ => false end.

Definition isPurchase (q : Request) : bool := negb (isScan q).

(** Takes the oldest request satisfying [p] out of the pending ones. *)
Fixpoint takeFirst (p : Request → bool) (l : list Request) : option (list Request) :=
  match l with
  | [] => None
  | q :: l' => if p q then Some l' else (q ::.) <$> takeFirst p l'
  end.

(** The page: the component state, the pending requests and everything the
    handlers have done so far. *)
Record Page : Type := {
  ui : DashState;
  inflight : list Request;
  history : list Effect
}.

Definition initialPage : Page :=
  {| ui := initialState; inflight := []; history := [] |}.

(** What can happen to the page: the user's actions on the three controls
    and the settlement of a pending request. *)
Inductive Event : Type :=
| ClickScan
| ClickPurchase (answer : bool)
| SelectRegion (r : string)
| ScanSettled (o : Outcome Api.ScanResponse)
| PurchaseSettled (o : Outcome value).

(** Runs a handler (or a continuation) to its next suspension point. *)
Definition runHandler {A} (m : M A) (pending : list Request) (p : Page) : Page :=
  let r := m (ui p) in
  {| ui := stateOf r;
     inflight := pending ++ requestsOf (traceOf r);
     history := history p ++ traceOf r |}.

(** One turn of the event loop.  A disabled button receives no click, the
    [select] offers its options only, and only a pending request settles. *)
Definition dispatch (e : Event) (p : Page) : option Page :=
  let v := render id (ui p) in
  match e with
  | ClickScan =>
      if scanDisabled v then None
      else Some (runHandler handleScan_request (inflight p) p)
  | ClickPurchase answer =>
      if purchaseDisabled v then None
      else Some (runHandler (handlePurchase_request answer) (inflight p) p)
  | SelectRegion r =>
      if bool_decide (r ∈ regionOptions)
      then Some (runHandler (setRegion r) (inflight p) p) else None
  | ScanSettled o =>
      rest ← takeFirst isScan (inflight p);
      Some (runHandler (handleScan_settle o) rest p)
  | PurchaseSettled o =>
      rest ← takeFirst isPurchase (inflight p);
      Some (runHandler (handlePurchase_settle o) rest p)
  end.

(** A sequence of events, oldest first. *)
Fixpoint run (es : list Event) (p : Page) : option Page :=
  match es with
  | [] => Some p
  | e :: es' => p' ← dispatch e p; run es' p'
  end.

(** ** The core's data model *)

Module DataModel.

(** Modelled from the spec: the backend's data model (RiskReport,
    InvestigationFinding, Quote, Order, ApprovalRequest) is not part of the
    source; the records follow section 3 of the specification.  Amounts are
    integers in the minor unit of their currency, timestamps are strings. *)
Inductive RiskLevel : Type := LOW | MEDIUM | CRITICAL.

Definition severity (l : RiskLevel) : nat :=
  match l with LOW => 0 | MEDIUM => 1 | CRITICAL => 2 end%nat.

Definition levelName (l : RiskLevel) : string :=
  match l with LOW => "LOW" | MEDIUM => "MEDIUM" | CRITICAL => "CRITICAL" end.

Record RiskReport : Type := {
  region : string;
  risk_level : RiskLevel;
  affected_parts : list string;
  summary : string;
  timestamp : string
}.

Inductive Dimension : Type := POLITICAL | WEATHER | OtherDimension (name : string).

Definition dimensionName (d : Dimension) : string :=
  match d with
  | POLITICAL => "POLITICAL"
  | WEATHER => "WEATHER"
  | OtherDimension name => name
  end.

Record InvestigationFinding : Type := {
  dimension : Dimension;
  finding_level : RiskLevel;
  evidence_digest : string;
  iterations_used : nat
}.

Record Quote : Type := {
  quote_supplier : string;
  quote_part : string;
  quote_quantity : Z;
  unit_price : Z;
  currency : string;
  lead_time_days : Z;
  expires_at : string
}.

Inductive OrderStatus : Type := PLACED | CONFIRMED | FAILED.

Definition statusName (st : OrderStatus) : string :=
  match st with PLACED => "PLACED" | CONFIRMED => "CONFIRMED" | FAILED => "FAILED" end.

Record Order : Type := {
  order_id : string;
  supplier_id : string;
  part_id : string;
  quantity : Z;
  total_cost : Z;
  status : OrderStatus
}.

Inductive Resolution : Type := PENDING | APPROVED | REJECTED.

Definition resolutionName (r : Resolution) : string :=
  match r with PENDING => "PENDING" | APPROVED => "APPROVED" | REJECTED => "REJECTED" end.

(** The order an ApprovalRequest asks to place: it has no identifier and no
    status yet. *)
Record OrderDraft : Type := {
  draft_supplier : string;
  draft_part : string;
  draft_quantity : Z;
  draft_total_cost : Z
}.

Record ApprovalRequest : Type := {
  order_draft : OrderDraft;
  reason : string;
  requested_at : string;
  resolution : Resolution
}.

(** The property names of the two records, as the data model lists them. *)
Definition orderFields : list string :=
  ["order_id"; "supplier_id"; "part_id"; "quantity"; "total_cost"; "status"].

Definition approvalRequestFields : list string :=
  ["order_draft"; "reason"; "requested_at"; "resolution"].

(** The JSON objects a response of this data model decodes to. *)
Definition encodeOrder (o : Order) : value :=
  VObject (list_to_map
    [("order_id", VString (order_id o)); ("supplier_id", VString (supplier_id o));
     ("part_id", VString (part_id o)); ("quantity", VNumber (quantity o));
     ("total_cost", VNumber (total_cost o)); ("status", VString (statusName (status o)))]).

Definition encodeDraft (d : OrderDraft) : value :=
  VObject (list_to_map
    [("supplier_id", VString (draft_supplier d)); ("part_id", VString (draft_part d));
     ("quantity", VNumber (draft_quantity d)); ("total_cost", VNumber (draft_total_cost d))]).

Definition encodeApprovalRequest (a : ApprovalRequest) : value :=
  VObject (list_to_map
    [("order_draft", encodeDraft (order_draft a)); ("reason", VString (reason a));
     ("requested_at", VString (requested_at a));
     ("resolution", VString (resolutionName (resolution a)))]).

Definition encodeReport (r : RiskReport) : Api.ScanResponse :=
  {| Api.region := region r;
     Api.risk_level := levelName (risk_level r);
     Api.affected_parts := affected_parts r;
     Api.summary := summary r;
     Api.timestamp := timestamp r |}.

End DataModel.

(** ** The supervisor's merge step *)

Module Supervisor.
Import DataModel.

(** Modelled from the spec: the Supervisor is not part of the source.  An
    investigation either completes within its timeout or is cancelled and
    hands back its best-effort finding (sections 4.3 and 5). *)
Inductive DimensionOutcome : Type :=
| Completed (f : InvestigationFinding)
| TimedOut (best_effort : InvestigationFinding).

Inductive ScanError : Type := SCAN_INCONCLUSIVE.

Definition completedFinding (o : DimensionOutcome) : option InvestigationFinding :=
  match o with Completed f => Some f | TimedOut _ => None end.

Definition completed (os : list DimensionOutcome) : list InvestigationFinding :=
  omap completedFinding os.

Definition maxLevel (a b : RiskLevel) : RiskLevel :=
  if (severity a <? severity b)%nat then b else a.

(** One line of the synthesized summary per dimension: the evidence digest
    of a completed investigation, a caveat for one that timed out. *)
Definition summaryLine (o : DimensionOutcome) : string :=
  match o with
  | Completed f => dimensionName (dimension f) +:+ ": " +:+ evidence_digest f
  | TimedOut f => dimensionName (dimension f) +:+ ": timed out (excluded)"
  end.

(** Modelled from the spec: [scan(region)] after the fan-in, given what each
    dimension's investigation returned.  The affected parts and the time of
    the scan come from outside the merge rule. *)
Definition scan (region now : string) (parts : list string)
    (os : list DimensionOutcome) : ScanError + RiskReport :=
  match completed os with
  | [] => inl SCAN_INCONCLUSIVE
  | f :: fs =>
      inr {| region := region;
             risk_level := foldr maxLevel (finding_level f) (finding_level <$> fs);
             affected_parts := parts;
             summary := String.concat "; " (summaryLine <$> os);
             timestamp := now |}
  end.

(** [m] is the maximum severity among [levels]. *)
Definition isMaxLevel (m : RiskLevel) (levels : list RiskLevel) : Prop :=
  m ∈ levels ∧ ∀ l, l ∈ levels → (severity l ≤ severity m)%nat.

Definition finding (d : Dimension) (l : RiskLevel) (digest : string) : InvestigationFinding :=
  {| dimension := d; finding_level := l; evidence_digest := digest; iterations_used := 1 |}.

(** A scan whose weather investigation timed out on a CRITICAL best-effort
    finding. *)
Definition exampleOutcomes : list DimensionOutcome :=
  [Completed (finding POLITICAL MEDIUM "election unrest");
   TimedOut (finding WEATHER CRITICAL "typhoon warning");
   Completed (finding (OtherDimension "LOGISTICS") LOW "ports open")].

End Supervisor.

(** ** The procurement workflow *)

Module Procurement.
Import DataModel.

(** Modelled from the spec: the Procurement Agent is not part of the source.
    The states are those of section 4.5. *)
Inductive Step : Type :=
| CHECK_MEMORY | REQUEST_QUOTE | EVALUATE | AUTO_APPROVE | AWAIT_APPROVAL
| PLACE_ORDER | UPDATE_MEMORY | DONE | FAILED.

(** The terminal reasons of section 7; the specification names none for an
    order the supplier fails, [ORDER_FAILED] stands for it. *)
Inductive FailureReason : Type :=
| NO_VIABLE_SUPPLIER | APPROVAL_DENIED | MALFORMED_JUDGMENT | ORDER_FAILED.

Inductive Decision : Type := Approve | Reject.

Inductive ResolveError : Type := ALREADY_RESOLVED.

Inductive QuoteReply : Type := Quoted (q : Quote) | NO_STOCK | PRICE_CHANGED.

(** The durable state of one workflow instance. *)
Record Workflow : Type := {
  step : Step;
  wanted_part : string;
  wanted_quantity : Z;
  candidates : list string;
  quote : option Quote;
  auto_approved : bool;
  approval : option ApprovalRequest;
  order : option Order;
  failure : option FailureReason
}.

(** What drives a workflow forward: the answers of its collaborators, its
    own computation steps, and the external actor's decision. *)
Inductive Input : Type :=
| MemoryRead (ranked : list string)
| QuoteAnswer (r : QuoteReply)
| Evaluate (now : string)
| Proceed
| Resolved (d : Decision)
| OrderPlaced (id : string) (st : OrderStatus)
| OrderSettled (st : OrderStatus)
| Abort.

Definition start (part : string) (qty : Z) : Workflow :=
  {| step := CHECK_MEMORY; wanted_part := part; wanted_quantity := qty;
     candidates := []; quote := None; auto_approved := false;
     approval := None; order := None; failure := None |}.

Definition goto (st : Step) (w : Workflow) : Workflow :=
  {| step := st; wanted_part := wanted_part w; wanted_quantity := wanted_quantity w;
     candidates := candidates w; quote := quote w; auto_approved := auto_approved w;
     approval := approval w; order := order w; failure := failure w |}.

Definition fail (r : FailureReason) (w : Workflow) : Workflow :=
  {| step := FAILED; wanted_part := wanted_part w; wanted_quantity := wanted_quantity w;
     candidates := candidates w; quote := quote w; auto_approved := auto_approved w;
     approval := approval w; order := order w; failure := Some r |}.

Definition withCandidates (cs : list string) (w : Workflow) : Workflow :=
  {| step := step w; wanted_part := wanted_part w; wanted_quantity := wanted_quantity w;
     candidates := cs; quote := quote w; auto_approved := auto_approved w;
     approval := approval w; order := order w; failure := failure w |}.

Definition withQuote (q : Quote) (w : Workflow) : Workflow :=
  {| step := step w; wanted_part := wanted_part w; wanted_quantity := wanted_quantity w;
     candidates := candidates w; quote := Some q; auto_approved := auto_approved w;
     approval := approval w; order := order w; failure := failure w |}.

Definition withAutoApproval (w : Workflow) : Workflow :=
  {| step := step w; wanted_part := wanted_part w; wanted_quantity := wanted_quantity w;
     candidates := candidates w; quote := quote w; auto_approved := true;
     approval := approval w; order := order w; failure := failure w |}.

Definition withApproval (a : ApprovalRequest) (w : Workflow) : Workflow :=
  {| step := step w; wanted_part := wanted_part w; wanted_quantity := wanted_quantity w;
     candidates := candidates w; quote := quote w; auto_approved := auto_approved w;
     approval := Some a; order := order w; failure := failure w |}.

Definition withOrder (o : Order) (w : Workflow) : Workflow :=
  {| step := step w; wanted_part := wanted_part w; wanted_quantity := wanted_quantity w;
     candidates := candidates w; quote := quote w; auto_approved := auto_approved w;
     approval := approval w; order := Some o; failure := failure w |}.

Definition resolveAs (r : Resolution) (a : ApprovalRequest) : ApprovalRequest :=
  {| order_draft := order_draft a; reason := reason a;
     requested_at := requested_at a; resolution := r |}.

Definition withStatus (st : OrderStatus) (o : Order) : Order :=
  {| order_id := order_id o; supplier_id := supplier_id o; part_id := part_id o;
     quantity := quantity o; total_cost := total_cost o; status := st |}.

Definition terminal (st : OrderStatus) : bool :=
  match st with PLACED => false | CONFIRMED | DataModel.FAILED => true end.

(** REQUEST_QUOTE with the candidates that are left, FAILED when none is. *)
Definition requestQuote (cs : list string) (w : Workflow) : Workflow :=
  match cs with
  | [] => fail NO_VIABLE_SUPPLIER (withCandidates [] w)
  | _ :: _ => goto REQUEST_QUOTE (withCandidates cs w)
  end.

(** Modelled from the spec: [POST /approvals/{id}/resolve {decision}], which
    is not part of the source, on the workflow that owns the ApprovalRequest
    (sections 3, 4.5 and 8): a PENDING request takes the decision and the
    workflow resumes to PLACE_ORDER or fails with APPROVAL_DENIED; a resolved
    one gives ALREADY_RESOLVED and no change.  [None] when the workflow has
    no ApprovalRequest, a case the specification leaves open. *)
Definition resolve (d : Decision) (w : Workflow)
    : option (Workflow * (ResolveError + unit)) :=
  a ← approval w;
  Some (match resolution a with
        | PENDING =>
            match d with
            | Approve => (goto PLACE_ORDER (withApproval (resolveAs APPROVED a) w), inr tt)
            | Reject => (fail APPROVAL_DENIED (withApproval (resolveAs REJECTED a) w), inr tt)
            end
        | APPROVED | REJECTED => (w, inl ALREADY_RESOLVED)
        end).

Section Gate.

(** The configured approval threshold, in the canonical currency, and the
    Tool Access Layer's CURRENCY_CONVERT into that currency. *)
Variable threshold : Z.
Variable toCanonical : string → Z → Z.

Definition quoteCost (q : Quote) : Z :=
  toCanonical (currency q) (unit_price q * quote_quantity q).

Definition draftOf (q : Quote) : OrderDraft :=
  {| draft_supplier := quote_supplier q; draft_part := quote_part q;
     draft_quantity := quote_quantity q; draft_total_cost := quoteCost q |}.

Definition placedOrder (id : string) (st : OrderStatus) (q : Quote) : Order :=
  {| order_id := id; supplier_id := quote_supplier q; part_id := quote_part q;
     quantity := quote_quantity q; total_cost := quoteCost q; status := st |}.

(** Modelled from the spec: the EVALUATE step, which is not part of the
    source.  Below the threshold the purchase is auto-approved; at or above
    it an ApprovalRequest is created and the workflow suspends. *)
Definition evaluate (now : string) (q : Quote) (w : Workflow) : Workflow :=
  if quoteCost q <? threshold
  then goto AUTO_APPROVE (withAutoApproval w)
  else goto AWAIT_APPROVAL
         (withApproval {| order_draft := draftOf q;
                          reason := "total cost at or above the approval threshold";
                          requested_at := now; resolution := PENDING |} w).

(** Modelled from the spec: one transition of the workflow of section 4.5,
    which is not part of the source; [None] when the input does not apply in
    the current state.  FAILED is absorbing, and a workflow leaves
    AWAIT_APPROVAL by a resolution only. *)
Definition advance (i : Input) (w : Workflow) : option Workflow :=
  match step w, i with
  | CHECK_MEMORY, MemoryRead ranked => Some (requestQuote ranked w)
  | REQUEST_QUOTE, QuoteAnswer (Quoted q) => Some (goto EVALUATE (withQuote q w))
  | REQUEST_QUOTE, QuoteAnswer _ => Some (requestQuote (tail (candidates w)) w)
  | EVALUATE, Evaluate now => q ← quote w; Some (evaluate now q w)
  | AUTO_APPROVE, Proceed => Some (goto PLACE_ORDER w)
  | AWAIT_APPROVAL, Resolved d =>
      match resolve d w with
      | Some (w', inr _) => Some w'
      | _ => None
      end
  | PLACE_ORDER, OrderPlaced id st =>
      match order w, quote w with
      | None, Some q =>
          let w' := withOrder (placedOrder id st q) w in
          Some (if terminal st then goto UPDATE_MEMORY w' else w')
      | _, _ => None
      end
  | PLACE_ORDER, OrderSettled st =>
      match order w with
      | Some o =>
          if terminal st && negb (terminal (status o))
          then Some (goto UPDATE_MEMORY (withOrder (withStatus st o) w))
          else None
      | None => None
      end
  | UPDATE_MEMORY, Proceed =>
      match status <$> order w with
      | Some CONFIRMED => Some (goto DONE w)
      | Some DataModel.FAILED => Some (fail ORDER_FAILED w)
      | _ => None
      end
  | (CHECK_MEMORY | REQUEST_QUOTE | EVALUATE | AUTO_APPROVE | PLACE_ORDER | UPDATE_MEMORY),
    Abort => Some (fail MALFORMED_JUDGMENT w)
  | _, _ => None
  end.

(** The states a workflow instance can be in. *)
Inductive reachable (w0 : Workflow) : Workflow → Prop :=
| reach_start : reachable w0 w0
| reach_step w i w' : reachable w0 w → advance i w = Some w' → reachable w0 w'.

Fixpoint runInputs (inputs : list Input) (w : Workflow) : option Workflow :=
  match inputs with
  | [] => Some w
  | i :: rest => w' ← advance i w; runInputs rest w'
  end.

(** An order exists only behind the gate: auto-approved below the
    threshold, or explicitly approved. *)
Definition approved (w : Workflow) : Prop :=
  auto_approved w = true ∨
  ∃ a, approval w = Some a ∧ resolution a = APPROVED.

(** How the gate was passed agrees with the cost of the quote: before the
    evaluation nothing is approved or requested; afterwards a purchase
    below the threshold has no ApprovalRequest and one at or above it is
    not auto-approved. *)
Definition costInv (w : Workflow) : bool :=
  match step w with
  | CHECK_MEMORY | REQUEST_QUOTE | EVALUATE =>
      negb (auto_approved w) && isNull (approval w)
  | _ =>
      match quote w with
      | Some q =>
          if quoteCost q <? threshold then isNull (approval w)
          else negb (auto_approved w)
      | None => negb (auto_approved w) && isNull (approval w)
      end
  end.

End Gate.

(** The workflow's ApprovalRequest, if any, is still PENDING. *)
Definition pendingApproval (w : Workflow) : bool :=
  match resolution <$> approval w with Some PENDING => true | _ => false end.

(** [approved], decided. *)
Definition isApproved (w : Workflow) : bool :=
  auto_approved w ||
  match resolution <$> approval w with Some APPROVED => true | _ => false end.

(** What holds of every state of a workflow instance started by [start],
    step by step. *)
Definition gateInv (w : Workflow) : bool :=
  match step w with
  | CHECK_MEMORY | REQUEST_QUOTE =>
      isNull (approval w) && isNull (order w)
  | EVALUATE =>
      isNull (approval w) && isNull (order w) && negb (isNull (quote w))
  | AUTO_APPROVE =>
      isNull (approval w) && isNull (order w) && auto_approved w
  | AWAIT_APPROVAL =>
      pendingApproval w && isNull (order w)
  | PLACE_ORDER | UPDATE_MEMORY | DONE =>
      isApproved w && negb (pendingApproval w)
  | FAILED =>
      negb (pendingApproval w) && (isNull (order w) || isApproved w)
  end.

(** The steps a workflow can be in once its ApprovalRequest is resolved. *)
Definition afterGate (st : Step) : bool :=
  match st with
  | PLACE_ORDER | UPDATE_MEMORY | DONE | FAILED => true
  | _ => false
  end.

(** A purchase of 50 units at 120.00 against a threshold of 5000.00, in
    minor units of one currency. *)
Definition exampleQuote : Quote :=
  {| quote_supplier := "backup-supplier"; quote_part := "Logic-Core-CPU";
     quote_quantity := 50; unit_price := 12000; currency := "USD";
     lead_time_days := 7; expires_at := "2025-01-02T00:00:00Z" |}.

Definition exampleInputs : list Input :=
  [MemoryRead ["backup-supplier"]; QuoteAnswer (Quoted exampleQuote);
   Evaluate "2025-01-01T00:00:00Z"].

(** The same purchase approved, placed and confirmed. *)
Definition exampleApprovedInputs : list Input :=
  exampleInputs ++ [Resolved Approve; OrderPlaced "PO-1" PLACED; OrderSettled CONFIRMED].

End Procurement.

(** ** Reading a response *)

(** Overwrites one property of an object; other values have no own
    properties to overwrite. *)
Definition setField (k : string) (v : value) (res : value) : value :=
  match res with
  | VObject fields => VObject (<[k:=v]> fields)
  | _ => res
  end.

(** [handlePurchase] reads property [k] of the response: some change of
    that property alone changes what the handler does. *)
Definition readsField (k : string) : Prop :=
  ∃ res v s,
    handlePurchase_settle (Fulfilled (setField k v res)) s
    ≠ handlePurchase_settle (Fulfilled res) s.

(** Every property [handlePurchase] reads belongs to Order or to
    ApprovalRequest. *)
Definition readsOnlyDataModelFields : Prop :=
  ∀ k, readsField k →
       k ∈ DataModel.orderFields ∨ k ∈ DataModel.approvalRequestFields.

(** [handleScan], before the response arrives, clears the scan result and
    the order status and leaves every other state cell as it was. *)
Definition clearsOnlyResults (s : DashState) : Prop :=
  let s' := stateOf (handleScan_request s) in
  scanResult s' = None ∧ orderStatus s' = VNull ∧
  region s' = region s ∧ loading s' = loading s.

Definition confirmMessage : string :=
  "Confirm purchase of 50 CPUs from backup supplier?".

Definition scanFailedMessage : string :=
  "Failed to connect to Sentinell Backend. Please check your .env.local file.".

(** What holds of the page after the events [es]: the loading flag tells
    whether a request is pending, at most one is, nothing is shown while a
    scan is pending, and a stored report is the payload of a scan that
    succeeded. *)
Definition pageInv (es : list Event) (p : Page) : Prop :=
  ((loading (ui p) = false ∧ inflight p = []) ∨
   (loading (ui p) = true ∧
    ∃ q, inflight p = [q] ∧
         (isScan q = true → scanResult (ui p) = None ∧ orderStatus (ui p) = VNull))) ∧
  (∀ d, scanResult (ui p) = Some d → ScanSettled (Fulfilled d) ∈ es) ∧
  (∀ part qty, PurchaseParts part qty ∈ history p →
               ∃ d, ScanSettled (Fulfilled d) ∈ es).

(** A session of the dashboard: a scan of the preselected region returns a
    CRITICAL report, then the user confirms a purchase. *)
Definition exampleReport : Api.ScanResponse :=
  DataModel.encodeReport
    {| DataModel.region := "Taiwan"; DataModel.risk_level := DataModel.CRITICAL;
       DataModel.affected_parts := ["Logic-Core-CPU"];
       DataModel.summary := "Port closure after the earthquake";
       DataModel.timestamp := "2025-01-01T00:00:00Z" |}.

Definition exampleSession : list Event :=
  [ClickScan; ScanSettled (Fulfilled exampleReport); ClickPurchase true].

(** What further holds of the page after the events [es]: the selected
    region is one of the options, every request issued so far is a scan of
    an option or the fixed purchase, a displayed order status is the summary
    of a purchase response that arrived, and a purchase is pending only
    under a stored report. *)
Definition feedInv (es : list Event) (p : Page) : Prop :=
  region (ui p) ∈ regionOptions ∧
  (∀ r, ScanRegion r ∈ history p → r ∈ regionOptions) ∧
  (∀ part qty, PurchaseParts part qty ∈ history p →
               part = "Logic-Core-CPU" ∧ qty = 50) ∧
  (orderStatus (ui p) = VNull ∨
   ∃ res, PurchaseSettled (Fulfilled res) ∈ es ∧
          get_prop "summary" res = Some (orderStatus (ui p))) ∧
  (∀ part qty, ReqPurchase part qty ∈ inflight p → scanResult (ui p) ≠ None).

Definition purchaseFailedMessage : string :=
  "Purchase failed. Check console for details.".

(** The example session continued: the purchase response arrives. *)
Definition exampleOrderResponse : value :=
  VObject {[ "summary" := VString "Order placed with backup supplier" ]}.

Definition examplePurchaseSession : list Event :=
  exampleSession ++ [PurchaseSettled (Fulfilled exampleOrderResponse)].

(** The card of a successful scan shows the complete report: it tells two
    different reports apart. *)
Definition displaysCompleteReport (fmt : string → string) : Prop :=
  ∀ s d1 d2,
    scanPanel (render fmt (stateOf (handleScan (Fulfilled d1) s)))
    = scanPanel (render fmt (stateOf (handleScan (Fulfilled d2) s))) →
    d1 = d2.

(** The badge is defined for the three levels only: what takes its final
    branch is LOW. *)
Definition finalBranchIsLow : Prop :=
  ∀ fmt data,
    badgeClass (renderScan fmt data) = "bg-green-950/50 border-green-500 text-green-400" →
    Api.risk_level data = "LOW".

(** A response of the purchase operation, which returns an Order or an
    ApprovalRequest, as the API client hands it to the dashboard. *)
Definition encodeResponse (r : DataModel.Order + DataModel.ApprovalRequest) : value :=
  match r with
  | inl o => DataModel.encodeOrder o
  | inr a => DataModel.encodeApprovalRequest a
  end.

(** * Properties of the dashboard *)

Lemma get_prop_setField_ne k k' v res :
  k ≠ k' → get_prop k' (setField k v res) = get_prop k' res.
Proof.
  intros Hne. destruct res; simpl; try reflexivity.
  by rewrite lookup_insert_ne.
Qed.

Lemma get_summary_encodeOrder o :
  get_prop "summary" (DataModel.encodeOrder o) = Some VUndefined.
Proof. reflexivity. Qed.

Lemma get_summary_encodeApprovalRequest a :
  get_prop "summary" (DataModel.encodeApprovalRequest a) = Some VUndefined.
Proof. reflexivity. Qed.

Lemma readsField_summary : readsField "summary".
Proof.
  exists (VObject ∅), (VString "placed"), initialState.
  vm_compute. discriminate.
Qed.

Lemma readsField_only_summary k : readsField k → k = "summary".
Proof.
  intros (res & v & s & Hdiff).
  destruct (decide (k = "summary")) as [|Hne]; [assumption|].
  exfalso. apply Hdiff. unfold handlePurchase_settle.
  by rewrite (get_prop_setField_ne _ _ _ _ Hne).
Qed.

(** C1, as stated, fails: [handlePurchase] reads the property [summary],
    which is a field neither of Order nor of ApprovalRequest. *)
Lemma handlePurchase_reads_outside_data_model : ¬ readsOnlyDataModelFields.
Proof.
  intros Hclaim.
  destruct (Hclaim "summary" readsField_summary) as [Hin | Hin];
    revert Hin; apply (bool_decide_unpack _); vm_compute; exact I.
Qed.

(** C1, amended: every response of the purchase operation is an Order or an
    ApprovalRequest of the data model, and [handlePurchase] reads exactly
    one property of the response, [summary], which is a field of neither.
    So for every such response the value read is [undefined]:
    [handlePurchase] stores [undefined] as the order status and the page
    shows no order message.  Whatever value it reads it stores as the order
    status, and a summary that is a non-empty string is displayed in the
    order card. *)
Theorem handlePurchase_reads_summary :
  (∀ k, readsField k ↔ k = "summary") ∧
  ("summary" ∉ DataModel.orderFields) ∧
  ("summary" ∉ DataModel.approvalRequestFields) ∧
  (∀ fmt (r : DataModel.Order + DataModel.ApprovalRequest) s,
     let s' := stateOf (handlePurchase_settle (Fulfilled (encodeResponse r)) s) in
     has_prop "summary" (encodeResponse r) = false ∧
     get_prop "summary" (encodeResponse r) = Some VUndefined ∧
     orderStatus s' = VUndefined ∧
     orderPanel (render fmt s') = None ∧
     mounted (render fmt s') = Some (NoCard Blank)) ∧
  (∀ res v s, get_prop "summary" res = Some v →
     orderStatus (stateOf (handlePurchase_settle (Fulfilled res) s)) = v) ∧
  (∀ fmt res txt s, get_prop "summary" res = Some (VString txt) → txt ≠ "" →
     let s' := stateOf (handlePurchase_settle (Fulfilled res) s) in
     orderPanel (render fmt s') = Some (VString txt) ∧
     mounted (render fmt s') = Some (Card (StringText txt))).
Proof.
  split; [|split; [|split; [|split; [|split]]]].
  - intros k. split; [apply readsField_only_summary|].
    intros ->. apply readsField_summary.
  - apply (bool_decide_unpack _). vm_compute. exact I.
  - apply (bool_decide_unpack _). vm_compute. exact I.
  - intros fmt [o|a] s; repeat split.
  - intros res v s Hget. unfold handlePurchase_settle. rewrite Hget. reflexivity.
  - intros fmt res txt s Hget Hne. unfold handlePurchase_settle. rewrite Hget.
    assert (He : String.eqb txt "" = false) by (by apply String.eqb_neq).
    unfold render, orderPanel, mounted. simpl. rewrite He. simpl. rewrite He.
    split; reflexivity.
Qed.

(** C2: every run of [handlePurchase] that sends a request sends exactly one,
    [purchaseParts("Logic-Core-CPU", 50)]; a run that is declined sends
    none. *)
Theorem handlePurchase_arguments (answer : bool) (o : Outcome value) (s : DashState) :
  requestsOf (traceOf (handlePurchase answer o s))
  = (if answer then [ReqPurchase "Logic-Core-CPU" 50] else []) ∧
  Forall (λ q, q = ReqPurchase "Logic-Core-CPU" 50)
         (requestsOf (traceOf (handlePurchase answer o s))).
Proof.
  assert (Hreq : requestsOf (traceOf (handlePurchase answer o s))
                 = (if answer then [ReqPurchase "Logic-Core-CPU" 50] else [])).
  { destruct answer; [|reflexivity].
    destruct o as [res | err]; [|reflexivity].
    unfold handlePurchase, handlePurchase_settle.
    destruct (get_prop "summary" res); reflexivity. }
  split; [exact Hreq|].
  rewrite Hreq. destruct answer; repeat constructor.
Qed.

(** The final branch of the badge's conditional takes every level other
    than the two it names. *)
Lemma badgeClassOf_other (l : string) :
  l ≠ "CRITICAL" → l ≠ "MEDIUM" →
  badgeClassOf l = "bg-green-950/50 border-green-500 text-green-400".
Proof.
  intros Hc Hm. unfold badgeClassOf.
  destruct (String.eqb_spec l "CRITICAL"); [contradiction|].
  destruct (String.eqb_spec l "MEDIUM"); [contradiction|]. reflexivity.
Qed.

(** C7, as stated, fails: the rendering is not defined for the three levels
    only; the final branch takes a level that is not LOW. *)
Lemma final_branch_takes_other_levels : ¬ finalBranchIsLow.
Proof.
  intros Hclaim.
  specialize (Hclaim id
    {| Api.region := "USA"; Api.risk_level := "HIGH"; Api.affected_parts := [];
       Api.summary := "strike"; Api.timestamp := "2025-01-01T00:00:00Z" |} eq_refl).
  discriminate Hclaim.
Qed.

(** C7, amended: a RiskReport of the data model reaches the dashboard with
    risk_level one of LOW, MEDIUM, CRITICAL, a summary string and a
    timestamp, and the dashboard renders each of them: CRITICAL and MEDIUM
    get their own badge class (CRITICAL alone gets the alert icon), LOW gets
    the class of the final branch, and the three classes differ.  The
    rendering itself is defined for every risk_level string: only CRITICAL
    and MEDIUM are distinguished, and the final branch takes every other
    value, LOW included, under its own text. *)
Theorem render_risk_report (fmt : string → string) :
  (∀ r : DataModel.RiskReport,
     let p := renderScan fmt (DataModel.encodeReport r) in
     Api.risk_level (DataModel.encodeReport r) ∈ ["LOW"; "MEDIUM"; "CRITICAL"] ∧
     badgeClass p
     = match DataModel.risk_level r with
       | DataModel.CRITICAL => "bg-red-950/50 border-red-500 text-red-400"
       | DataModel.MEDIUM => "bg-yellow-950/50 border-yellow-500 text-yellow-400"
       | DataModel.LOW => "bg-green-950/50 border-green-500 text-green-400"
       end ∧
     alertIcon p
     = match DataModel.risk_level r with DataModel.CRITICAL => true | _ => false end ∧
     badgeText p = DataModel.levelName (DataModel.risk_level r) +:+ " RISK DETECTED" ∧
     timeText p = fmt (DataModel.timestamp r) ∧
     summaryText p = DataModel.summary r ∧
     (∀ s, scanResult s = Some (DataModel.encodeReport r) →
           scanPanel (render fmt s) = Some p)) ∧
  (∀ l l', badgeClassOf (DataModel.levelName l) = badgeClassOf (DataModel.levelName l') →
           l = l') ∧
  (∀ data : Api.ScanResponse,
     let p := renderScan fmt data in
     (badgeClass p = "bg-red-950/50 border-red-500 text-red-400"
      ↔ Api.risk_level data = "CRITICAL") ∧
     (badgeClass p = "bg-yellow-950/50 border-yellow-500 text-yellow-400"
      ↔ Api.risk_level data = "MEDIUM") ∧
     (badgeClass p = "bg-green-950/50 border-green-500 text-green-400"
      ↔ Api.risk_level data ≠ "CRITICAL" ∧ Api.risk_level data ≠ "MEDIUM") ∧
     (alertIcon p = true ↔ Api.risk_level data = "CRITICAL") ∧
     badgeText p = Api.risk_level data +:+ " RISK DETECTED" ∧
     timeText p = fmt (Api.timestamp data) ∧
     summaryText p = Api.summary data).
Proof.
  split; [|split].
  - intros [reg lvl parts summ ts]. cbn. repeat split.
    + destruct lvl; apply (bool_decide_unpack _); vm_compute; exact I.
    + destruct lvl; reflexivity.
    + destruct lvl; reflexivity.
    + intros s Hs. unfold render. cbn. rewrite Hs. reflexivity.
  - intros l l'. destruct l, l'; vm_compute; congruence.
  - intros data. simpl. unfold badgeClassOf.
    destruct (String.eqb_spec (Api.risk_level data) "CRITICAL") as [Hc|Hc];
      [|destruct (String.eqb_spec (Api.risk_level data) "MEDIUM") as [Hm|Hm]].
    + rewrite Hc. repeat split; try discriminate; try reflexivity;
        intros; try congruence. destruct H as [H _]. congruence.
    + rewrite Hm. repeat split; try discriminate; try reflexivity;
        intros; try congruence. destruct H as [_ H]. congruence.
    + repeat split; try discriminate; try reflexivity; intros; try congruence.
Qed.

(** C9: a declined confirmation dialog ends [handlePurchase] at once: the
    run performs the [confirm] call and nothing else, so no request is
    issued and region, loading, scanResult and orderStatus are unchanged.
    In every run the dialog comes first, and a request follows it exactly
    when the user confirmed. *)
Theorem handlePurchase_declined (o : Outcome value) (s : DashState) :
  handlePurchase false o s = (tt, s, [Confirm confirmMessage false]) ∧
  handlePurchase_request false s = (false, s, [Confirm confirmMessage false]) ∧
  (∀ answer,
     ∃ rest,
       traceOf (handlePurchase answer o s) = Confirm confirmMessage answer :: rest ∧
       requestsOf rest = if answer then [ReqPurchase "Logic-Core-CPU" 50] else []).
Proof.
  split; [reflexivity|]. split; [reflexivity|].
  intros answer. destruct answer.
  - destruct o as [res | err].
    + unfold handlePurchase, handlePurchase_settle.
      destruct (get_prop "summary" res); eexists; split; reflexivity.
    + eexists; split; reflexivity.
  - exists []. split; reflexivity.
Qed.

(** C10, as stated, fails: before the response arrives [handleScan] also
    sets the loading flag. *)
Lemma handleScan_request_sets_loading : ¬ clearsOnlyResults initialState.
Proof.
  intros (_ & _ & _ & Hloading). vm_compute in Hloading. discriminate.
Qed.

(** C10, amended: every run of [handleScan], before issuing the request,
    sets loading to true and sets both the scan result and the order status
    to null, in this order and with no other setter call, and then issues
    the request for the current region; region is unchanged.  While the
    request is in flight neither a report nor an order message is
    rendered. *)
Theorem handleScan_request_clears (fmt : string → string) (s : DashState) :
  let r := handleScan_request s in
  traceOf r = [SetLoading true; SetScanResult None; SetOrderStatus VNull;
               ScanRegion (region s)] ∧
  stateOf r = {| region := region s; loading := true;
                 scanResult := None; orderStatus := VNull |} ∧
  scanPanel (render fmt (stateOf r)) = None ∧
  orderPanel (render fmt (stateOf r)) = None.
Proof. repeat split. Qed.

(** ** Invariants of the event loop *)

Lemma run_snoc es e p : run (es ++ [e]) p = run es p ≫= dispatch e.
Proof.
  revert p. induction es as [|e' es IH]; intros p; simpl.
  - destruct (dispatch e p); reflexivity.
  - destruct (dispatch e' p) as [p'|]; simpl; [apply IH | reflexivity].
Qed.

Lemma pageInv_initial : pageInv [] initialPage.
Proof.
  split; [|split].
  - left. split; reflexivity.
  - intros d Hd. discriminate Hd.
  - intros part qty Hin. apply elem_of_nil in Hin. contradiction.
Qed.

(** Membership of an effect in a short explicit trace. *)
Ltac in_trace H :=
  repeat (apply elem_of_cons in H as [H|H]; [try discriminate H|]);
  try (apply elem_of_nil in H; contradiction).

Lemma pageInv_dispatch es e p p' :
  pageInv es p → dispatch e p = Some p' → pageInv (es ++ [e]) p'.
Proof.
  intros (Hflight & Hseen & Hbought) Hstep.
  assert (Hold : ∀ d, scanResult (ui p) = Some d →
                      ScanSettled (Fulfilled d) ∈ es ++ [e]).
  { intros d Hd. apply elem_of_app. left. by apply Hseen. }
  assert (Hkeep : ∀ t part qty,
            PurchaseParts part qty ∉ t →
            PurchaseParts part qty ∈ history p ++ t →
            ∃ d, ScanSettled (Fulfilled d) ∈ es ++ [e]).
  { intros t part qty Hnot [Hin|Hin]%elem_of_app; [|contradiction].
    destruct (Hbought _ _ Hin) as [d Hd]. exists d.
    apply elem_of_app. by left. }
  destruct p as [[reg ld sr os] infl hist]. simpl in *.
  destruct e as [|answer|r|o|o]; simpl in Hstep.
  - (* ClickScan *)
    destruct ld; [discriminate|]. injection Hstep as <-.
    destruct Hflight as [[_ ->] | [Hld _]]; [|discriminate].
    split; [|split]; simpl.
    + right. split; [reflexivity|]. eexists. split; [reflexivity|]. auto.
    + intros d Hd. discriminate Hd.
    + intros part qty. apply Hkeep. intros Hin. in_trace Hin.
  - (* ClickPurchase *)
    destruct ld; [discriminate|]. simpl in Hstep.
    destruct Hflight as [[_ ->] | [Hld _]]; [|discriminate].
    destruct sr as [d0|]; [|discriminate]. simpl in Hstep.
    injection Hstep as <-.
    destruct answer; (split; [|split]; simpl; [|exact Hold|]).
    + right. split; [reflexivity|]. eexists. split; [reflexivity|].
      intros Hq. discriminate Hq.
    + intros _ _ _. exists d0. by apply Hold.
    + left. split; reflexivity.
    + intros part qty. apply Hkeep. intros Hin. in_trace Hin.
  - (* SelectRegion *)
    case_bool_decide; [|discriminate]. injection Hstep as <-.
    split; [|split]; simpl; [|exact Hold|].
    + rewrite app_nil_r. exact Hflight.
    + intros part qty. apply Hkeep. intros Hin. in_trace Hin.
  - (* ScanSettled *)
    destruct Hflight as [[_ ->] | [-> (q & -> & Hq)]]; [discriminate|].
    simpl in Hstep. destruct (isScan q) eqn:Hscan; [|discriminate].
    simpl in Hstep. injection Hstep as <-.
    destruct (Hq eq_refl) as [-> ->].
    destruct o as [data|err];
      (split; [|split]; simpl; [left; split; reflexivity| |]).
    + intros d [= <-]. apply elem_of_app. right. apply list_elem_of_singleton.
      reflexivity.
    + intros part qty. apply Hkeep. intros Hin. in_trace Hin.
    + intros d Hd. discriminate Hd.
    + intros part qty. apply Hkeep. intros Hin. in_trace Hin.
  - (* PurchaseSettled *)
    destruct Hflight as [[_ ->] | [-> (q & -> & Hq)]]; [discriminate|].
    simpl in Hstep. unfold isPurchase in Hstep.
    destruct (isScan q) eqn:Hscan; [discriminate|].
    simpl in Hstep. injection Hstep as <-.
    destruct o as [res|err].
    + unfold runHandler, handlePurchase_settle.
      destruct (get_prop "summary" res);
        (split; [|split]; simpl; [left; split; reflexivity | exact Hold |]);
        intros part qty; apply Hkeep; intros Hin; in_trace Hin.
    + split; [|split]; simpl; [left; split; reflexivity | exact Hold |].
      intros part qty. apply Hkeep. intros Hin. in_trace Hin.
Qed.

Lemma pageInv_run es p : run es initialPage = Some p → pageInv es p.
Proof.
  revert p. induction es as [|e es IH] using rev_ind; intros p Hrun.
  - injection Hrun as <-. apply pageInv_initial.
  - rewrite run_snoc in Hrun.
    destruct (run es initialPage) as [p0|] eqn:Hrun0; [|discriminate].
    simpl in Hrun. eapply pageInv_dispatch; [apply IH; reflexivity | exact Hrun].
Qed.

(** C6, as stated, fails: the card of a successful scan does not show the
    complete report; two reports that differ in their affected parts (or
    their region) are displayed alike. *)
Lemma scan_card_omits_fields : ¬ displaysCompleteReport id.
Proof.
  intros Hclaim.
  specialize (Hclaim initialState exampleReport
    {| Api.region := Api.region exampleReport;
       Api.risk_level := Api.risk_level exampleReport;
       Api.affected_parts := [];
       Api.summary := Api.summary exampleReport;
       Api.timestamp := Api.timestamp exampleReport |} eq_refl).
  discriminate Hclaim.
Qed.

(** C6, amended: a run of [handleScan] whose request fails leaves the scan
    result null (no report is rendered), raises the alert and ends with
    loading reset, and the failure path never writes the scan result.  A run
    whose request succeeds stores the returned report unchanged, raises no
    alert, ends with loading reset, and displays the report's risk_level,
    timestamp and summary; its region and affected parts are not displayed.
    The dashboard never alters or makes up a report: a report on the page is
    always one that a successful scan returned. *)
Theorem handleScan_outcome (fmt : string → string) (s : DashState) :
  (∀ err,
     let r := handleScan (Rejected err) s in
     scanResult (stateOf r) = None ∧
     scanPanel (render fmt (stateOf r)) = None ∧
     loading (stateOf r) = false ∧
     traceOf r = [SetLoading true; SetScanResult None; SetOrderStatus VNull;
                  ScanRegion (region s); Alert scanFailedMessage; SetLoading false]) ∧
  (∀ data,
     let r := handleScan (Fulfilled data) s in
     scanResult (stateOf r) = Some data ∧
     scanPanel (render fmt (stateOf r))
     = Some {| badgeClass :=
                 if String.eqb (Api.risk_level data) "CRITICAL"
                 then "bg-red-950/50 border-red-500 text-red-400"
                 else if String.eqb (Api.risk_level data) "MEDIUM"
                 then "bg-yellow-950/50 border-yellow-500 text-yellow-400"
                 else "bg-green-950/50 border-green-500 text-green-400";
               alertIcon := String.eqb (Api.risk_level data) "CRITICAL";
               badgeText := Api.risk_level data +:+ " RISK DETECTED";
               timeText := fmt (Api.timestamp data);
               summaryText := Api.summary data |} ∧
     mounted (render fmt (stateOf r)) = Some (NoCard Blank) ∧
     loading (stateOf r) = false ∧
     traceOf r = [SetLoading true; SetScanResult None; SetOrderStatus VNull;
                  ScanRegion (region s); SetScanResult (Some data); SetLoading false]) ∧
  (∀ err,
     let r := handleScan_settle (Rejected err) s in
     scanResult (stateOf r) = scanResult s ∧ loading (stateOf r) = false) ∧
  (∀ d1 d2,
     Api.risk_level d1 = Api.risk_level d2 → Api.timestamp d1 = Api.timestamp d2 →
     Api.summary d1 = Api.summary d2 →
     scanPanel (render fmt (stateOf (handleScan (Fulfilled d1) s)))
     = scanPanel (render fmt (stateOf (handleScan (Fulfilled d2) s)))) ∧
  (∀ es p d, run es initialPage = Some p → scanResult (ui p) = Some d →
             ScanSettled (Fulfilled d) ∈ es).
Proof.
  split; [|split; [|split; [|split]]].
  - intros err. repeat split.
  - intros data. repeat split.
  - intros err. repeat split.
  - intros d1 d2 Hl Ht Hs. unfold render, renderScan. simpl.
    by rewrite Hl, Ht, Hs.
  - intros es p d Hrun Hd. apply (pageInv_run _ _ Hrun). exact Hd.
Qed.

(** While a scan is in flight the page shows neither a report nor an order
    message. *)
Lemma scan_in_flight_shows_nothing (fmt : string → string) es p r :
  run es initialPage = Some p → ReqScan r ∈ inflight p →
  scanPanel (render fmt (ui p)) = None ∧ orderPanel (render fmt (ui p)) = None.
Proof.
  intros Hrun Hin. destruct (pageInv_run _ _ Hrun) as (Hflight & _ & _).
  destruct Hflight as [[_ Hnone] | [_ (q & Hq & Hclear)]].
  - rewrite Hnone in Hin. apply elem_of_nil in Hin. contradiction.
  - rewrite Hq in Hin. apply list_elem_of_singleton in Hin. subst q.
    destruct (Hclear eq_refl) as [Hsr Hos]. unfold render. simpl.
    rewrite Hsr, Hos. split; reflexivity.
Qed.

(** A declined purchase leaves the page as it was, but for the record of
    the dialog. *)
Lemma declined_purchase_page p p' :
  dispatch (ClickPurchase false) p = Some p' →
  ui p' = ui p ∧ inflight p' = inflight p ∧
  history p' = history p ++ [Confirm confirmMessage false].
Proof.
  simpl. destruct (loading (ui p) || isNull (scanResult (ui p))); [discriminate|].
  intros [= <-]. unfold runHandler. simpl. rewrite app_nil_r.
  destruct (ui p). repeat split.
Qed.

(** C8: in every rendered state the purchase button is disabled when loading
    is true or scanResult is null, and a disabled button starts no purchase.
    Consequently, after any sequence of events from the initial page, at
    most one request is in flight (and one is exactly when loading is true),
    a click that reaches [handlePurchase] finds no request in flight and a
    stored report that an earlier scan returned, and every purchase request
    ever issued was preceded by a scan that returned a report. *)
Theorem purchase_button_guard (fmt : string → string) (es : list Event) (p : Page) :
  run es initialPage = Some p →
  (∀ s, purchaseDisabled (render fmt s) = loading s || isNull (scanResult s)) ∧
  (∀ answer, purchaseDisabled (render fmt (ui p)) = true →
             dispatch (ClickPurchase answer) p = None) ∧
  (length (inflight p) ≤ 1)%nat ∧
  (loading (ui p) = true ↔ inflight p ≠ []) ∧
  (∀ answer p', dispatch (ClickPurchase answer) p = Some p' →
     inflight p = [] ∧
     ∃ d, scanResult (ui p) = Some d ∧ ScanSettled (Fulfilled d) ∈ es) ∧
  (∀ part qty, PurchaseParts part qty ∈ history p →
     ∃ d, ScanSettled (Fulfilled d) ∈ es).
Proof.
  intros Hrun. destruct (pageInv_run _ _ Hrun) as (Hflight & Hseen & Hbought).
  split; [reflexivity|]. split; [|split; [|split; [|split]]].
  - intros answer Hdis. simpl in *. unfold isNull in *. by rewrite Hdis.
  - destruct Hflight as [[_ ->] | [_ (q & -> & _)]]; simpl; lia.
  - destruct Hflight as [[Hld ->] | [Hld (q & -> & _)]]; rewrite Hld; split;
      intros H; try discriminate; try reflexivity. contradiction.
  - intros answer p' Hclick. simpl in Hclick.
    destruct (loading (ui p)) eqn:Hld; [discriminate|]. simpl in Hclick.
    destruct (scanResult (ui p)) as [d|] eqn:Hsr; [|discriminate].
    split.
    + destruct Hflight as [[_ ?] | [? _]]; [assumption | discriminate].
    + exists d. split; [reflexivity|]. by apply Hseen.
  - exact Hbought.
Qed.

Lemma purchase_button_guard_witness :
  ∃ p, run exampleSession initialPage = Some p ∧
       (length (inflight p) ≤ 1)%nat ∧
       (∃ d, ScanSettled (Fulfilled d) ∈ exampleSession) ∧
       history p = [SetLoading true; SetScanResult None; SetOrderStatus VNull;
                    ScanRegion "Taiwan";
                    SetScanResult (Some exampleReport); SetLoading false;
                    Confirm confirmMessage true; SetLoading true;
                    PurchaseParts "Logic-Core-CPU" 50].
Proof.
  eexists. split; [reflexivity|].
  split; [|split; [|reflexivity]].
  - apply (purchase_button_guard id exampleSession _ eq_refl).
  - eapply (purchase_button_guard id exampleSession _ eq_refl).
    apply list_elem_of_In. simpl. right. right. right. right. right. right.
    right. right. left. reflexivity.
Defined.

(** * Properties of the supervisor's merge step *)

Module SupervisorFacts.
Import DataModel Supervisor.

Lemma foldr_maxLevel_isMax l ls :
  isMaxLevel (foldr maxLevel l ls) (l :: ls).
Proof.
  induction ls as [|x ls [Hin Hmax]]; simpl.
  - split; [apply list_elem_of_here|].
    intros l' ->%list_elem_of_singleton. reflexivity.
  - set (m := foldr maxLevel l ls) in *. unfold maxLevel.
    destruct (Nat.ltb_spec (severity x) (severity m)) as [Hlt|Hge].
    + split.
      * apply elem_of_cons in Hin as [Hin|Hin]; [rewrite Hin; apply list_elem_of_here|].
        do 2 apply list_elem_of_further. exact Hin.
      * intros l' Hl'. apply elem_of_cons in Hl' as [->|Hl'];
          [apply Hmax, list_elem_of_here|].
        apply elem_of_cons in Hl' as [->|Hl']; [lia|].
        apply Hmax, list_elem_of_further, Hl'.
    + split; [apply list_elem_of_further, list_elem_of_here|].
      intros l' Hl'. apply elem_of_cons in Hl' as [->|Hl'].
      * specialize (Hmax l (list_elem_of_here _ _)). lia.
      * apply elem_of_cons in Hl' as [->|Hl']; [lia|].
        specialize (Hmax l' (list_elem_of_further _ _ _ Hl')). lia.
Qed.

Lemma completed_Completed fs : completed (Completed <$> fs) = fs.
Proof.
  induction fs as [|f fs IH]; [reflexivity|].
  change (completed (Completed <$> f :: fs))
    with (f :: completed (Completed <$> fs)).
  by rewrite IH.
Qed.

(** C4: when at least one investigation completed, [scan] returns a
    RiskReport whose risk_level is the maximum severity among the findings
    that completed: it is the level of one of them and at least as severe as
    each.  Investigations that timed out do not count: the level is the one
    the completed findings alone would give. *)
Theorem scan_risk_level (region now : string) (parts : list string)
    (os : list DimensionOutcome) :
  completed os ≠ [] →
  ∃ r, scan region now parts os = inr r ∧
       isMaxLevel (risk_level r) (finding_level <$> completed os) ∧
       ∃ r', scan region now parts (Completed <$> completed os) = inr r' ∧
             risk_level r' = risk_level r.
Proof.
  intros Hsome. unfold scan. rewrite completed_Completed.
  destruct (completed os) as [|f fs]; [contradiction|].
  eexists. split; [reflexivity|]. split.
  - simpl. apply foldr_maxLevel_isMax.
  - eexists. split; reflexivity.
Qed.

Lemma scan_risk_level_witness :
  completed exampleOutcomes ≠ [] ∧
  ∃ r, scan "Taiwan" "2025-01-01T00:00:00Z" ["Logic-Core-CPU"] exampleOutcomes = inr r ∧
       risk_level r = MEDIUM.
Proof.
  split; [discriminate|].
  destruct (scan_risk_level "Taiwan" "2025-01-01T00:00:00Z" ["Logic-Core-CPU"]
              exampleOutcomes) as (r & Hscan & _); [discriminate|].
  exists r. split; [exact Hscan|].
  vm_compute in Hscan. injection Hscan as <-. reflexivity.
Defined.

End SupervisorFacts.

(** * Properties of the procurement workflow *)

Module ProcurementFacts.
Import DataModel Procurement.

Section Gate.

Variable threshold : Z.
Variable toCanonical : string → Z → Z.

Local Abbreviation advance := (Procurement.advance threshold toCanonical).
Local Abbreviation reachable := (Procurement.reachable threshold toCanonical).
Local Abbreviation quoteCost := (Procurement.quoteCost toCanonical).

Lemma gateInv_start part qty : gateInv (start part qty) = true.
Proof. reflexivity. Qed.

(** Splits the transition taken by [advance] into its cases. *)
Ltac advance_cases H :=
  repeat match type of H with
         | context [?x ≫= _] =>
             destruct x eqn:?; simpl in H; try discriminate H
         | context [match ?x with _ => _ end] =>
             destruct x eqn:?; simpl in H; try discriminate H
         | context [if ?b then _ else _] =>
             destruct b eqn:?; simpl in H; try discriminate H
         end.

Lemma gateInv_advance i w w' :
  gateInv w = true → advance i w = Some w' → gateInv w' = true.
Proof.
  intros Hinv Hstep.
  destruct w as [st part qty cs q auto ap ord fl].
  destruct st, i; unfold Procurement.advance in Hstep; simpl in Hstep;
    try discriminate Hstep;
    unfold requestQuote, evaluate, resolve in Hstep; simpl in Hstep.
  all: destruct q as [q0|], ap as [[dr rs ra [| |]]|],
         ord as [[oi os op oq oc [| |]]|], auto;
       try discriminate Hinv;
       try match goal with d : Decision |- _ => destruct d end;
       simpl in Hstep; advance_cases Hstep; try discriminate Hstep;
       injection Hstep as <-; reflexivity.
Qed.

Lemma gateInv_reachable part qty w :
  reachable (start part qty) w → gateInv w = true.
Proof.
  induction 1 as [|w i w' _ IH Hstep]; [apply gateInv_start|].
  exact (gateInv_advance _ _ _ IH Hstep).
Qed.

Lemma runInputs_reachable inputs w0 w :
  runInputs threshold toCanonical inputs w0 = Some w → reachable w0 w.
Proof.
  assert (Hgen : ∀ inputs w1, reachable w0 w1 →
            runInputs threshold toCanonical inputs w1 = Some w → reachable w0 w).
  { clear inputs. induction inputs as [|i inputs IH]; intros w1 Hreach Hrun; simpl in Hrun.
    - by injection Hrun as <-.
    - destruct (advance i w1) as [w2|] eqn:Hstep; [|discriminate].
      simpl in Hrun. eapply IH; [|exact Hrun].
      eapply reach_step; eassumption. }
  apply Hgen. constructor.
Qed.

Lemma isApproved_approved w : isApproved w = true → approved w.
Proof.
  unfold isApproved, approved. destruct (auto_approved w); [by left|]. simpl.
  destruct (approval w) as [a|] eqn:Ha; simpl; [|discriminate].
  destruct (resolution a) eqn:Hr; try discriminate. intros _. right. eauto.
Qed.

(** Once the ApprovalRequest is resolved and the gate is behind, no
    transition touches the ApprovalRequest again. *)
Lemma resolved_advance i w w' a :
  afterGate (step w) = true → approval w = Some a →
  advance i w = Some w' →
  afterGate (step w') = true ∧ approval w' = Some a.
Proof.
  intros Hafter Hap Hstep.
  destruct w as [st part qty cs q auto ap ord fl]. simpl in *. subst ap.
  destruct st; try discriminate Hafter;
    destruct i; unfold Procurement.advance in Hstep; simpl in Hstep;
    try discriminate Hstep;
    advance_cases Hstep; try discriminate Hstep;
    injection Hstep as <-; split; reflexivity.
Qed.

Lemma resolved_reachable w1 w2 a :
  afterGate (step w1) = true → approval w1 = Some a →
  reachable w1 w2 →
  afterGate (step w2) = true ∧ approval w2 = Some a.
Proof.
  intros Hafter Hap. induction 1 as [|w i w' _ [IHs IHa] Hstep]; [by split|].
  exact (resolved_advance _ _ _ _ IHs IHa Hstep).
Qed.

Lemma runInputs_snoc inputs i w0 :
  runInputs threshold toCanonical (inputs ++ [i]) w0
  = runInputs threshold toCanonical inputs w0 ≫= advance i.
Proof.
  revert w0. induction inputs as [|i0 inputs IH]; intros w0; simpl.
  - destruct (advance i w0); reflexivity.
  - destruct (advance i0 w0) as [w1|]; simpl; [apply IH | reflexivity].
Qed.

Lemma runInputs_app pre post w0 w :
  runInputs threshold toCanonical (pre ++ post) w0 = Some w →
  ∃ w1, runInputs threshold toCanonical pre w0 = Some w1 ∧
        runInputs threshold toCanonical post w1 = Some w.
Proof.
  revert w0. induction pre as [|i pre IH]; intros w0 Hrun; simpl in *.
  - exists w0. by split.
  - destruct (advance i w0) as [w1|]; [|discriminate]. simpl in *. by apply IH.
Qed.

Lemma costInv_advance i w w' :
  Procurement.costInv threshold toCanonical w = true →
  advance i w = Some w' →
  Procurement.costInv threshold toCanonical w' = true.
Proof.
  intros Hinv Hstep.
  destruct w as [st part qty cs q auto ap ord fl].
  destruct st, i; unfold Procurement.advance in Hstep; simpl in Hstep;
    try discriminate Hstep;
    unfold requestQuote, evaluate, resolve in Hstep; simpl in Hstep.
  all: unfold Procurement.costInv in *; simpl in *.
  all: destruct q as [q0|], ap as [[dr rs ra [| |]]|], ord as [o|], auto;
       simpl in *; try discriminate Hinv;
       try match goal with d : Decision |- _ => destruct d end;
       simpl in Hstep;
       try (destruct (Procurement.quoteCost toCanonical q0 <? threshold) eqn:Hcost;
            simpl in *; try discriminate Hinv);
       advance_cases Hstep; try discriminate Hstep;
       injection Hstep as <-; simpl; rewrite ?Hcost; reflexivity.
Qed.

(** Leaving AWAIT_APPROVAL takes a resolution. *)
Lemma await_left_by_resolution i w w' :
  step w = AWAIT_APPROVAL → advance i w = Some w' →
  ∃ d, i = Resolved d ∧ resolve d w = Some (w', inr tt).
Proof.
  intros Hst Hstep. unfold Procurement.advance in Hstep. rewrite Hst in Hstep.
  destruct i as [| | | |d| | |]; try discriminate Hstep.
  exists d. split; [reflexivity|].
  destruct (resolve d w) as [[w1 [e|[]]]|]; try discriminate Hstep.
  by injection Hstep as <-.
Qed.

(** A FAILED workflow takes no further step. *)
Lemma failed_absorbing i w : step w = FAILED → advance i w = None.
Proof.
  intros Hst. unfold Procurement.advance. rewrite Hst. by destruct i.
Qed.

(** An Order is placed from the quote and keeps its cost. *)
Lemma order_cost_advance i w w' :
  gateInv w = true →
  (∀ o, order w = Some o → ∃ q, quote w = Some q ∧ total_cost o = quoteCost q) →
  advance i w = Some w' →
  (∀ o, order w' = Some o → ∃ q, quote w' = Some q ∧ total_cost o = quoteCost q).
Proof.
  intros Hinv Hcost Hstep.
  destruct w as [st part qty cs q auto ap ord fl]. simpl in Hcost.
  destruct st, i; unfold Procurement.advance in Hstep; simpl in Hstep;
    try discriminate Hstep;
    unfold requestQuote, evaluate, resolve in Hstep; simpl in Hstep.
  all: destruct ord as [o0|];
       [destruct (Hcost o0 eq_refl) as (q0 & -> & Hc) | ];
       destruct ap as [[dr rs ra [| |]]|], auto;
       try discriminate Hinv;
       try match goal with d : Decision |- _ => destruct d end;
       simpl in Hstep;
       advance_cases Hstep; try discriminate Hstep;
       injection Hstep as <-; simpl; intros o1 Ho1; simplify_eq;
       eexists; (split; [reflexivity|]); simpl; done.
Qed.

(** An APPROVED ApprovalRequest was approved by this step or before it. *)
Lemma approved_advance i w w' a' :
  advance i w = Some w' →
  approval w' = Some a' → resolution a' = APPROVED →
  approval w = Some a' ∨
  (i = Resolved Approve ∧ pendingApproval w = true ∧ step w = AWAIT_APPROVAL).
Proof.
  intros Hstep Hap Hres.
  destruct w as [st part qty cs q auto ap ord fl].
  destruct st, i; unfold Procurement.advance in Hstep; simpl in Hstep;
    try discriminate Hstep;
    unfold requestQuote, evaluate, resolve in Hstep; simpl in Hstep.
  all: try match goal with d : Decision |- _ => destruct d end;
       try (destruct ap as [[dr rs ra [| |]]|]; simpl in Hstep);
       advance_cases Hstep; try discriminate Hstep;
       injection Hstep as <-; simpl in Hap; simplify_eq;
       try discriminate Hres; try (by left); by right.
Qed.

(** The resolution that approved the request is in the run, at a state
    where the request was PENDING. *)
Lemma approved_in_run part qty inputs w a :
  runInputs threshold toCanonical inputs (start part qty) = Some w →
  approval w = Some a → resolution a = APPROVED →
  ∃ pre post w0,
    inputs = pre ++ Resolved Approve :: post ∧
    runInputs threshold toCanonical pre (start part qty) = Some w0 ∧
    pendingApproval w0 = true ∧ step w0 = AWAIT_APPROVAL.
Proof.
  revert w a. induction inputs as [|i inputs IH] using rev_ind; intros w a Hrun Hap Hres.
  - injection Hrun as <-. discriminate Hap.
  - rewrite runInputs_snoc in Hrun.
    destruct (runInputs threshold toCanonical inputs (start part qty))
      as [w1|] eqn:Hrun1; [|discriminate]. simpl in Hrun.
    destruct (approved_advance _ _ _ _ Hrun Hap Hres) as [Hsame | (-> & Hpend & Hst)].
    + destruct (IH _ _ eq_refl Hsame Hres) as (pre & post & w0 & -> & Hpre & Hp).
      exists pre, (post ++ [i]), w0. split; [|by split].
      by rewrite <- app_assoc.
    + exists inputs, [], w1. by repeat split.
Qed.

Lemma gate_invariants part qty inputs w :
  runInputs threshold toCanonical inputs (start part qty) = Some w →
  gateInv w = true ∧ Procurement.costInv threshold toCanonical w = true ∧
  (∀ o, order w = Some o → ∃ q, quote w = Some q ∧ total_cost o = quoteCost q).
Proof.
  revert w. induction inputs as [|i inputs IH] using rev_ind; intros w Hrun.
  - injection Hrun as <-. repeat split. intros o Ho. discriminate Ho.
  - rewrite runInputs_snoc in Hrun.
    destruct (runInputs threshold toCanonical inputs (start part qty))
      as [w1|] eqn:Hrun1; [|discriminate]. simpl in Hrun.
    destruct (IH _ eq_refl) as (Hg & Hc & Ho).
    split; [exact (gateInv_advance _ _ _ Hg Hrun)|].
    split; [exact (costInv_advance _ _ _ Hc Hrun)|].
    exact (order_cost_advance _ _ _ Hg Ho Hrun).
Qed.

(** C3: in every state a workflow instance reaches by a run of inputs,
    (1) evaluating a quote whose total cost in the canonical currency is at
    or above the threshold creates an ApprovalRequest with resolution
    PENDING and suspends the workflow in AWAIT_APPROVAL with no Order;
    (2) while the ApprovalRequest is PENDING the workflow has no Order at
    all and takes no step but a resolution: resolving it REJECTED puts the
    workflow in FAILED with reason APPROVAL_DENIED and resolving it APPROVED
    advances it to PLACE_ORDER; (3) an Order carries the cost of the quote,
    and it exists either for a purchase below the threshold that was
    auto-approved, or for a purchase at or above the threshold whose
    ApprovalRequest is APPROVED, in which case the run contains the
    approving resolution, taken when the request was PENDING and no Order
    existed; (4) from a state with a PENDING ApprovalRequest no Order is
    reached by inputs that contain no approving resolution. *)
Theorem approval_gate (part : string) (qty : Z) (inputs : list Input) (w : Workflow) :
  runInputs threshold toCanonical inputs (start part qty) = Some w →
  (∀ q now, step w = EVALUATE → quote w = Some q → threshold ≤ quoteCost q →
     ∃ w' a, advance (Evaluate now) w = Some w' ∧
             step w' = AWAIT_APPROVAL ∧ order w' = None ∧
             approval w' = Some a ∧ resolution a = PENDING ∧
             draft_total_cost (order_draft a) = quoteCost q) ∧
  (∀ a, approval w = Some a → resolution a = PENDING →
     step w = AWAIT_APPROVAL ∧ order w = None ∧
     (∀ i w', advance i w = Some w' → ∃ d, i = Resolved d) ∧
     (∃ w', resolve Reject w = Some (w', inr tt) ∧
            advance (Resolved Reject) w = Some w' ∧
            step w' = FAILED ∧ failure w' = Some APPROVAL_DENIED ∧
            resolution <$> approval w' = Some REJECTED ∧ order w' = None) ∧
     (∃ w', resolve Approve w = Some (w', inr tt) ∧
            advance (Resolved Approve) w = Some w' ∧
            step w' = PLACE_ORDER ∧
            resolution <$> approval w' = Some APPROVED)) ∧
  (∀ o, order w = Some o →
     ∃ q, quote w = Some q ∧ total_cost o = quoteCost q ∧
          ((quoteCost q < threshold ∧ auto_approved w = true ∧ approval w = None) ∨
           (threshold ≤ quoteCost q ∧ auto_approved w = false ∧
            (∃ a, approval w = Some a ∧ resolution a = APPROVED) ∧
            ∃ pre post w0,
              inputs = pre ++ Resolved Approve :: post ∧
              runInputs threshold toCanonical pre (start part qty) = Some w0 ∧
              pendingApproval w0 = true ∧ order w0 = None))) ∧
  (∀ more w2, pendingApproval w = true →
     runInputs threshold toCanonical more w = Some w2 →
     Resolved Approve ∉ more → order w2 = None).
Proof.
  intros Hrun. destruct (gate_invariants _ _ _ _ Hrun) as (Hinv & Hcost & Hord).
  assert (Hpending : ∀ w1, gateInv w1 = true → pendingApproval w1 = true →
                           step w1 = AWAIT_APPROVAL ∧ order w1 = None).
  { intros [st1 p1 q1 cs1 qu1 au1 ap1 ord1 fl1] Hg Hp.
    unfold pendingApproval in Hp. simpl in *.
    destruct ap1 as [[dr rs ra [| |]]|]; try discriminate Hp.
    destruct st1, ord1, au1; try discriminate Hg; by split. }
  split; [|split; [|split]].
  - destruct w as [st wpart wqty cs q auto ap ord fl]. simpl.
    intros q0 now -> -> Hc.
    unfold Procurement.advance, evaluate. simpl.
    destruct (Z.ltb_spec (quoteCost q0) threshold) as [Hlt|_]; [lia|].
    destruct ap, ord; try discriminate Hinv.
    do 2 eexists. repeat split.
  - intros a Hap Hres.
    assert (Hp : pendingApproval w = true).
    { unfold pendingApproval. rewrite Hap. simpl. by rewrite Hres. }
    destruct (Hpending _ Hinv Hp) as [Hst Hno].
    split; [exact Hst|]. split; [exact Hno|]. split.
    { intros i w' Hstep.
      destruct (await_left_by_resolution _ _ _ Hst Hstep) as (d & -> & _). eauto. }
    destruct w as [st wpart wqty cs q auto ap ord fl]. simpl in *. subst.
    destruct a as [dr rs ra res]. simpl in Hres. subst res.
    split; eexists; repeat split.
  - intros o Ho.
    destruct (Hord _ Ho) as (q & Hq & Htotal).
    exists q. split; [exact Hq|]. split; [exact Htotal|].
    destruct w as [st wpart wqty cs qu auto ap ord fl]. simpl in *. subst.
    unfold Procurement.costInv in Hcost. simpl in Hcost.
    destruct (Z.ltb_spec (quoteCost q) threshold) as [Hlt|Hge].
    + left. split; [exact Hlt|].
      destruct st, auto, ap as [[dr rs ra [| |]]|];
        try discriminate Hinv; try discriminate Hcost; by split.
    + right. split; [exact Hge|].
      destruct st, auto, ap as [[dr rs ra [| |]]|];
        try discriminate Hinv; try discriminate Hcost;
        (split; [reflexivity|]); (split; [eauto|]);
        destruct (approved_in_run _ _ _ _ _ Hrun eq_refl eq_refl)
          as (pre & post & w0 & Hsplit & Hpre & Hp0 & Hst0);
        exists pre, post, w0;
        (split; [exact Hsplit|]); (split; [exact Hpre|]); (split; [exact Hp0|]);
        destruct (gate_invariants _ _ _ _ Hpre) as (Hg0 & _);
        by destruct (Hpending _ Hg0 Hp0).
  - intros more. revert Hinv. generalize w. clear - Hpending.
    induction more as [|i more IH]; intros w1 Hinv w2 Hp Hmore Hnot; simpl in Hmore.
    + injection Hmore as <-. by destruct (Hpending _ Hinv Hp).
    + destruct (advance i w1) as [w3|] eqn:Hstep; [|discriminate]. simpl in Hmore.
      destruct (Hpending _ Hinv Hp) as [Hst Hno].
      destruct (await_left_by_resolution _ _ _ Hst Hstep) as (d & -> & Hres).
      destruct d; [exfalso; apply Hnot, list_elem_of_here|].
      assert (Hfailed : step w3 = FAILED ∧ order w3 = None).
      { unfold resolve in Hres. destruct (approval w1) as [a|]; [|discriminate].
        simpl in Hres. destruct (resolution a); simplify_eq. by split. }
      destruct Hfailed as [Hf Hnone].
      destruct more as [|i' more]; simpl in Hmore.
      * by injection Hmore as <-.
      * by rewrite (failed_absorbing i' _ Hf) in Hmore.
Qed.

(** C5: the first resolve call on a PENDING ApprovalRequest succeeds and
    sets its resolution to APPROVED or REJECTED as decided, changing nothing
    else of the request; every later resolve call, at once or after any
    further progress of the workflow, fails with ALREADY_RESOLVED and
    returns the workflow, with its ApprovalRequest, unchanged. *)
Theorem resolve_once (w : Workflow) (a : ApprovalRequest) (d : Decision) :
  approval w = Some a → resolution a = PENDING →
  ∃ w1, resolve d w = Some (w1, inr tt) ∧
        approval w1
        = Some (resolveAs match d with Approve => APPROVED | Reject => REJECTED end a) ∧
        (∀ d', resolve d' w1 = Some (w1, inl ALREADY_RESOLVED)) ∧
        (∀ w2 d', reachable w1 w2 →
                  resolve d' w2 = Some (w2, inl ALREADY_RESOLVED) ∧
                  approval w2 = approval w1).
Proof.
  intros Hap Hres. unfold resolve at 1. rewrite Hap. simpl. rewrite Hres.
  assert (Hlater : ∀ w1 r, afterGate (step w1) = true →
            approval w1 = Some (resolveAs r a) → r ≠ PENDING →
            (∀ d', resolve d' w1 = Some (w1, inl ALREADY_RESOLVED)) ∧
            (∀ w2 d', reachable w1 w2 →
                      resolve d' w2 = Some (w2, inl ALREADY_RESOLVED) ∧
                      approval w2 = approval w1)).
  { intros w1 r Hafter Hap1 Hr.
    assert (Hfail : ∀ w2 d', approval w2 = Some (resolveAs r a) →
                             resolve d' w2 = Some (w2, inl ALREADY_RESOLVED)).
    { intros w2 d' Hap2. unfold resolve. rewrite Hap2. simpl.
      destruct r; [contradiction | reflexivity | reflexivity]. }
    split; [intros d'; by apply Hfail|].
    intros w2 d' Hreach.
    destruct (resolved_reachable _ _ _ Hafter Hap1 Hreach) as [_ Hap2].
    split; [by apply Hfail | congruence]. }
  destruct d; eexists; (split; [reflexivity|]); (split; [reflexivity|]);
    eapply Hlater; try reflexivity; discriminate.
Qed.

End Gate.

Lemma approval_gate_witness :
  ∃ w, runInputs 500000 (λ _ amount, amount) exampleApprovedInputs
         (start "Logic-Core-CPU" 50) = Some w ∧
       status <$> order w = Some CONFIRMED ∧
       ∃ pre post, exampleApprovedInputs = pre ++ Resolved Approve :: post.
Proof.
  eexists. split; [reflexivity|]. split; [reflexivity|].
  destruct (approval_gate 500000 (λ _ amount, amount) "Logic-Core-CPU" 50
              exampleApprovedInputs _ eq_refl) as (_ & _ & Horder & _).
  edestruct Horder
    as (q & Hq & _ & [(Hlt & _) | (_ & _ & _ & pre & post & w0 & Hsplit & _)]);
    [reflexivity | |].
  - exfalso. injection Hq as <-. vm_compute in Hlt. discriminate Hlt.
  - exists pre, post. exact Hsplit.
Defined.

Lemma resolve_once_witness :
  ∃ w w1, runInputs 500000 (λ _ amount, amount) exampleInputs
            (start "Logic-Core-CPU" 50) = Some w ∧
          resolve Reject w = Some (w1, inr tt) ∧
          resolve Approve w1 = Some (w1, inl ALREADY_RESOLVED).
Proof.
  eexists. 
  edestruct (resolve_once 500000 (λ _ amount, amount)) as (w1 & Hfirst & _ & Hagain & _);
    [| | exists w1; split; [reflexivity|]; split; [exact Hfirst | apply Hagain]];
    reflexivity.
Defined.

End ProcurementFacts.

(** * Further properties of the dashboard *)

Lemma feedInv_initial : feedInv [] initialPage.
Proof.
  split; [|split; [|split; [|split]]]; simpl.
  - apply list_elem_of_here.
  - intros r H. apply elem_of_nil in H. contradiction.
  - intros part qty H. apply elem_of_nil in H. contradiction.
  - by left.
  - intros part qty H. apply elem_of_nil in H. contradiction.
Qed.

(** Membership of a request in a short explicit trace, keeping what the
    matching entry says. *)
Ltac in_trace_eq H :=
  repeat (apply elem_of_cons in H as [H|H];
          [try discriminate H; try (injection H as -> ; try subst) |]);
  try (apply elem_of_nil in H; contradiction).

Lemma feedInv_dispatch es e p p' :
  pageInv es p → feedInv es p → dispatch e p = Some p' → feedInv (es ++ [e]) p'.
Proof.
  intros (Hflight & _ & _) (Hreg & Hscans & Hbuys & Hord & Hpend) Hstep.
  destruct p as [[reg ld sr os] infl hist]. simpl in *.
  assert (Hord' : os = VNull ∨
            ∃ res, PurchaseSettled (Fulfilled res) ∈ es ++ [e] ∧
                   get_prop "summary" res = Some os).
  { destruct Hord as [?|(res & Hin & Hget)]; [by left|].
    right. exists res. split; [|exact Hget]. apply elem_of_app. by left. }
  destruct e as [|answer|r|o|o]; simpl in Hstep.
  - destruct ld; [discriminate|]. injection Hstep as <-.
    destruct Hflight as [[_ ->] | [Hld _]]; [|discriminate].
    split; [|split; [|split; [|split]]]; simpl; [exact Hreg| | |by left|].
    + intros r [H|H]%elem_of_app; [by apply Hscans|]. in_trace_eq H. exact Hreg.
    + intros part qty [H|H]%elem_of_app; [by apply Hbuys|]. in_trace_eq H.
    + intros part qty H. in_trace_eq H.
  - destruct ld; [discriminate|]. simpl in Hstep.
    destruct Hflight as [[_ ->] | [Hld _]]; [|discriminate].
    destruct sr as [d0|]; [|discriminate]. simpl in Hstep.
    injection Hstep as <-.
    destruct answer;
      (split; [|split; [|split; [|split]]]; simpl; [exact Hreg| | |exact Hord'|]).
    + intros r [H|H]%elem_of_app; [by apply Hscans|]. in_trace_eq H.
    + intros part qty [H|H]%elem_of_app; [by apply Hbuys|]. in_trace_eq H.
      by split.
    + intros part qty _. discriminate.
    + intros r [H|H]%elem_of_app; [by apply Hscans|]. in_trace_eq H.
    + intros part qty [H|H]%elem_of_app; [by apply Hbuys|]. in_trace_eq H.
    + intros part qty _. discriminate.
  - case_bool_decide as Hopt; [|discriminate]. injection Hstep as <-.
    split; [|split; [|split; [|split]]]; simpl; [exact Hopt| | |exact Hord'|].
    + intros r' [H|H]%elem_of_app; [by apply Hscans|]. in_trace_eq H.
    + intros part qty [H|H]%elem_of_app; [by apply Hbuys|]. in_trace_eq H.
    + rewrite app_nil_r. exact Hpend.
  - destruct Hflight as [[_ ->] | [-> (q & -> & Hq)]]; [discriminate|].
    simpl in Hstep. destruct (isScan q) eqn:Hscan; [|discriminate].
    simpl in Hstep. injection Hstep as <-.
    destruct o as [data|err];
      (split; [|split; [|split; [|split]]]; simpl; [exact Hreg| | |exact Hord'|]).
    + intros r [H|H]%elem_of_app; [by apply Hscans|]. in_trace_eq H.
    + intros part qty [H|H]%elem_of_app; [by apply Hbuys|]. in_trace_eq H.
    + intros part qty H. in_trace_eq H.
    + intros r [H|H]%elem_of_app; [by apply Hscans|]. in_trace_eq H.
    + intros part qty [H|H]%elem_of_app; [by apply Hbuys|]. in_trace_eq H.
    + intros part qty H. in_trace_eq H.
  - destruct Hflight as [[_ ->] | [-> (q & -> & Hq)]]; [discriminate|].
    simpl in Hstep. unfold isPurchase in Hstep.
    destruct (isScan q) eqn:Hscan; [discriminate|].
    simpl in Hstep. injection Hstep as <-.
    destruct o as [res|err].
    + unfold runHandler, handlePurchase_settle.
      destruct (get_prop "summary" res) as [v|] eqn:Hget;
        (split; [|split; [|split; [|split]]]; simpl; [exact Hreg| | | |]).
      * intros r [H|H]%elem_of_app; [by apply Hscans|]. in_trace_eq H.
      * intros part qty [H|H]%elem_of_app; [by apply Hbuys|]. in_trace_eq H.
      * right. exists res. split; [|exact Hget].
        apply elem_of_app. right. apply list_elem_of_here.
      * intros part qty H. in_trace_eq H.
      * intros r [H|H]%elem_of_app; [by apply Hscans|]. in_trace_eq H.
      * intros part qty [H|H]%elem_of_app; [by apply Hbuys|]. in_trace_eq H.
      * exact Hord'.
      * intros part qty H. in_trace_eq H.
    + split; [|split; [|split; [|split]]]; simpl; [exact Hreg| | |exact Hord'|].
      * intros r [H|H]%elem_of_app; [by apply Hscans|]. in_trace_eq H.
      * intros part qty [H|H]%elem_of_app; [by apply Hbuys|]. in_trace_eq H.
      * intros part qty H. in_trace_eq H.
Qed.

Lemma run_snoc_inv es e p :
  run (es ++ [e]) initialPage = Some p →
  ∃ p0, run es initialPage = Some p0 ∧ dispatch e p0 = Some p.
Proof.
  rewrite run_snoc. destruct (run es initialPage) as [p0|]; [|discriminate].
  simpl. intros H. exists p0. by split.
Qed.

Lemma feedInv_run es p : run es initialPage = Some p → feedInv es p.
Proof.
  revert p. induction es as [|e es IH] using rev_ind; intros p Hrun.
  - injection Hrun as <-. apply feedInv_initial.
  - destruct (run_snoc_inv _ _ _ Hrun) as (p0 & Hrun0 & Hstep).
    eapply feedInv_dispatch; [by apply pageInv_run | by apply IH | exact Hstep].
Qed.




(** X3: every request the dashboard ever issues is a scan of one of the
    three regions the select offers, or the purchase of 50 Logic-Core-CPU;
    the selected region is always one of the three. *)
Theorem requests_issued (es : list Event) (p : Page) :
  run es initialPage = Some p →
  region (ui p) ∈ regionOptions ∧
  (∀ r, ScanRegion r ∈ history p → r ∈ regionOptions) ∧
  (∀ part qty, PurchaseParts part qty ∈ history p →
               part = "Logic-Core-CPU" ∧ qty = 50).
Proof.
  intros Hrun. destruct (feedInv_run _ _ Hrun) as (Hreg & Hscans & Hbuys & _).
  split; [exact Hreg | split; [exact Hscans | exact Hbuys]].
Qed.

Lemma requests_issued_witness :
  ∃ p, run [SelectRegion "Vietnam"; ClickScan] initialPage = Some p ∧
       region (ui p) ∈ regionOptions ∧
       history p = [SetRegion "Vietnam"; SetLoading true; SetScanResult None;
                    SetOrderStatus VNull; ScanRegion "Vietnam"].
Proof.
  eexists. split; [reflexivity|]. split; [|reflexivity].
  destruct (requests_issued [SelectRegion "Vietnam"; ClickScan] _ eq_refl)
    as [Hreg _].
  exact Hreg.
Defined.

(** X4: a purchase that fails, because the request is rejected or because
    the response is [null] or [undefined] so that reading its summary
    throws, raises the failure alert and resets loading; it leaves the
    order status, the scan result and the region as they were. *)
Theorem purchase_failure_paths (s : DashState) (o : Outcome value) :
  (∃ err, o = Rejected err) ∨ o = Fulfilled VNull ∨ o = Fulfilled VUndefined →
  handlePurchase_settle o s
  = (tt, {| region := region s; loading := false;
            scanResult := scanResult s; orderStatus := orderStatus s |},
     [Alert purchaseFailedMessage; SetLoading false]).
Proof. intros [[err ->] | [-> | ->]]; reflexivity. Qed.

Lemma purchase_failure_paths_witness :
  traceOf (handlePurchase_settle (Fulfilled VNull) initialState)
  = [Alert purchaseFailedMessage; SetLoading false].
Proof.
  rewrite (purchase_failure_paths initialState (Fulfilled VNull)); [reflexivity|].
  right. left. reflexivity.
Defined.

(** X5: no run of [handlePurchase], declined or confirmed, failed or
    successful, changes the scan result or the region: as long as the page
    stays on the screen the displayed report is the one displayed before.
    The page unmounts exactly when the summary read is an object. *)
Theorem purchase_keeps_report (fmt : string → string) (answer : bool)
    (o : Outcome value) (s : DashState) :
  let s' := stateOf (handlePurchase answer o s) in
  scanResult s' = scanResult s ∧ region s' = region s ∧
  (mounted (render fmt s') ≠ None →
   scanPanel (render fmt s') = scanPanel (render fmt s)) ∧
  (mounted (render fmt s) ≠ None → mounted (render fmt s') = None →
   answer = true ∧
   ∃ res fields, o = Fulfilled res ∧ get_prop "summary" res = Some (VObject fields)).
Proof.
  destruct answer; [|repeat split; intros; try reflexivity; contradiction].
  destruct o as [res|err];
    [|repeat split; intros; try reflexivity;
      match goal with H : _ ≠ None |- _ => contradiction end].
  unfold handlePurchase, handlePurchase_settle.
  destruct (get_prop "summary" res) as [v|] eqn:Hget.
  - repeat split; try reflexivity.
    exists res. unfold mounted, render in H0. simpl in H0.
    destruct v as [| |b|n|txt|fields]; simpl in H0; try discriminate H0.
    + destruct b; discriminate H0.
    + destruct (n =? 0); discriminate H0.
    + destruct (String.eqb txt ""); discriminate H0.
    + by exists fields.
  - repeat split; intros; try reflexivity;
      match goal with H : _ ≠ None |- _ => contradiction end.
Qed.



(** X7: an order message on the page is always the summary of a purchase
    response that arrived earlier in the session. *)
Theorem order_message_provenance (fmt : string → string) (es : list Event)
    (p : Page) (v : value) :
  run es initialPage = Some p →
  orderPanel (render fmt (ui p)) = Some v →
  ∃ res, PurchaseSettled (Fulfilled res) ∈ es ∧
         get_prop "summary" res = Some v ∧ truthy v = true.
Proof.
  intros Hrun Hpanel.
  destruct (feedInv_run _ _ Hrun) as (_ & _ & _ & Hord & _).
  unfold render in Hpanel. simpl in Hpanel.
  destruct (truthy (orderStatus (ui p))) eqn:Htruthy; [|discriminate].
  injection Hpanel as <-.
  destruct Hord as [Hnull | (res & Hin & Hget)].
  - rewrite Hnull in Htruthy. discriminate.
  - exists res. by repeat split.
Qed.

Lemma order_message_provenance_witness :
  ∃ p, run examplePurchaseSession initialPage = Some p ∧
       orderPanel (render id (ui p))
       = Some (VString "Order placed with backup supplier") ∧
       ∃ res, PurchaseSettled (Fulfilled res) ∈ examplePurchaseSession.
Proof.
  eexists. split; [reflexivity|]. split; [reflexivity|].
  destruct (order_message_provenance id examplePurchaseSession _ _ eq_refl eq_refl)
    as (res & Hin & _).
  exists res. exact Hin.
Defined.

(** X8: the state a run of [handleScan] ends in depends on the selected
    region and the outcome only: whatever was displayed before, the order
    status ends null, and the purchase button ends enabled exactly when the
    scan succeeded, so a failed new scan withdraws the earlier report. *)
Theorem handleScan_final_state (fmt : string → string)
    (o : Outcome Api.ScanResponse) (s : DashState) :
  let s' := stateOf (handleScan o s) in
  s' = {| region := region s; loading := false;
          scanResult := match o with Fulfilled d => Some d | Rejected _ => None end;
          orderStatus := VNull |} ∧
  orderPanel (render fmt s') = None ∧
  purchaseDisabled (render fmt s')
  = match o with Fulfilled _ => false | Rejected _ => true end.
Proof. destruct o; repeat split. Qed.

(** X9: a report whose risk_level is any string other than the two the
    badge names, such as a lower-case or unknown level, is rendered with the
    class of the final branch and without the alert icon, under its own
    text. *)
Theorem unknown_level_badge (fmt : string → string) (data : Api.ScanResponse) :
  Api.risk_level data ≠ "CRITICAL" → Api.risk_level data ≠ "MEDIUM" →
  badgeClass (renderScan fmt data) = "bg-green-950/50 border-green-500 text-green-400" ∧
  alertIcon (renderScan fmt data) = false ∧
  badgeText (renderScan fmt data) = Api.risk_level data +:+ " RISK DETECTED".
Proof.
  intros Hc Hm. simpl. split; [by apply badgeClassOf_other|].
  split; [|reflexivity].
  destruct (String.eqb_spec (Api.risk_level data) "CRITICAL"); [contradiction|].
  reflexivity.
Qed.

Lemma unknown_level_badge_witness :
  badgeText (renderScan id
    {| Api.region := "USA"; Api.risk_level := "critical"; Api.affected_parts := [];
       Api.summary := "strike"; Api.timestamp := "2025-01-01T00:00:00Z" |})
  = "critical RISK DETECTED" ∧
  alertIcon (renderScan id
    {| Api.region := "USA"; Api.risk_level := "critical"; Api.affected_parts := [];
       Api.summary := "strike"; Api.timestamp := "2025-01-01T00:00:00Z" |}) = false.
Proof.
  destruct (unknown_level_badge id
    {| Api.region := "USA"; Api.risk_level := "critical"; Api.affected_parts := [];
       Api.summary := "strike"; Api.timestamp := "2025-01-01T00:00:00Z" |})
    as (_ & Hicon & Htext); [discriminate | discriminate |].
  split; [exact Htext | exact Hicon].
Defined.

(** X10: selecting a region only records the selection: it issues no
    request, leaves a pending request pending, and keeps the displayed
    report, the order message and both buttons as they were. *)
Theorem select_region_frame (fmt : string → string) (r : string) (p p' : Page) :
  dispatch (SelectRegion r) p = Some p' →
  region (ui p') = r ∧
  history p' = history p ++ [SetRegion r] ∧
  inflight p' = inflight p ∧
  scanPanel (render fmt (ui p')) = scanPanel (render fmt (ui p)) ∧
  orderPanel (render fmt (ui p')) = orderPanel (render fmt (ui p)) ∧
  scanDisabled (render fmt (ui p')) = scanDisabled (render fmt (ui p)) ∧
  purchaseDisabled (render fmt (ui p')) = purchaseDisabled (render fmt (ui p)).
Proof.
  simpl. case_bool_decide; [|discriminate]. intros [= <-].
  unfold runHandler. simpl. rewrite app_nil_r. repeat split.
Qed.

Lemma select_region_frame_witness :
  ∃ p', dispatch (SelectRegion "USA") initialPage = Some p' ∧
        region (ui p') = "USA" ∧ inflight p' = [].
Proof.
  eexists. split; [reflexivity|].
  destruct (select_region_frame id "USA" initialPage _ eq_refl)
    as (Hreg & _ & Hflight & _).
  split; [exact Hreg | exact Hflight].
Defined.

(** X11: while a purchase is pending the report that enabled it is still
    displayed; the purchase button is disabled yet keeps its active styling,
    and the scan button is disabled and reads Analyzing. *)
Theorem purchase_in_flight_view (fmt : string → string) (es : list Event)
    (p : Page) (part : string) (qty : Z) :
  run es initialPage = Some p → ReqPurchase part qty ∈ inflight p →
  (∃ d, scanResult (ui p) = Some d ∧
        scanPanel (render fmt (ui p)) = Some (renderScan fmt d)) ∧
  purchaseDisabled (render fmt (ui p)) = true ∧
  purchaseClass (render fmt (ui p))
  = "border-green-600 text-green-500 hover:bg-green-900/20 active:scale-95" ∧
  scanDisabled (render fmt (ui p)) = true ∧
  scanLabel (render fmt (ui p)) = "Analyzing...".
Proof.
  intros Hrun Hin.
  destruct (pageInv_run _ _ Hrun) as (Hflight & _ & _).
  destruct (feedInv_run _ _ Hrun) as (_ & _ & _ & _ & Hpend).
  specialize (Hpend _ _ Hin).
  destruct Hflight as [[_ Hnone] | [Hld _]].
  - rewrite Hnone in Hin. apply elem_of_nil in Hin. contradiction.
  - unfold render. simpl. rewrite Hld.
    destruct (scanResult (ui p)) as [d|]; [|contradiction].
    split; [exists d; by split|]. repeat split.
Qed.

Lemma purchase_in_flight_view_witness :
  ∃ p, run exampleSession initialPage = Some p ∧
       inflight p = [ReqPurchase "Logic-Core-CPU" 50] ∧
       purchaseDisabled (render id (ui p)) = true ∧
       scanLabel (render id (ui p)) = "Analyzing...".
Proof.
  eexists. split; [reflexivity|]. split; [reflexivity|].
  destruct (purchase_in_flight_view id exampleSession _ "Logic-Core-CPU" 50 eq_refl)
    as (_ & Hdis & _ & _ & Hlabel); [apply list_elem_of_here|].
  split; [exact Hdis | exact Hlabel].
Defined.
